(** * client.py: the federated-learning client, embedded in Rocq

    The development follows [src/client.py].  Python values are embedded
    shallowly: an [int] is a [Z], a [str] is a [string], a float64 is a
    [spec_float] of the binary64 format, an [OrderedDict] of tensors is an
    association list in insertion order, and a method that mutates the client,
    the file system or a random generator is a function from the state before
    the call to the state after it together with the value returned or the
    exception raised. *)

From Stdlib Require Import ZArith Lia Bool Ascii String QArith Qcanon.
From Stdlib Require Import Floats.SpecFloat.
From stdpp Require Import base option list strings gmap pretty.

Open Scope string_scope.
Open Scope Z_scope.

(** ** Python exceptions and results *)

(** What [load_state_dict] collects in [error_msgs] before it raises. *)
Inductive LoadError :=
| MissingKeys (keys : list string)
| UnexpectedKeys (keys : list string)
| SizeMismatch (key : string).

Inductive Exn :=
| ValueError (msg : string)
| TypeError (msg : string)
| ZeroDivisionError
| UnboundLocalError (var : string)
| RuntimeError_load_state_dict (error_msgs : list LoadError)
| RuntimeError_size (a b : nat)
| RuntimeError (msg : string)
| OSError (errno : Z)
| OtherError (msg : string).

Inductive result (A : Type) :=
| Ok (a : A)
| Raise (e : Exn).
Arguments Ok {A} a.
Arguments Raise {A} e.

Definition raises {A} (r : result A) : bool :=
  match r with Ok _ => false | Raise _ => true end.

Definition result_bind {A B} (r : result A) (k : A -> result B) : result B :=
  match r with
  | Ok a => k a
  | Raise e => Raise e
  end.

(** ** float64 and int64, as numpy has them *)

Module F64.

Definition prec : Z := 53.
Definition emax : Z := 1024.

Definition float64 := spec_float.

(** int to float64, round to nearest even. *)
Definition of_int (z : Z) : float64 := binary_normalize prec emax z 0 false.

Definition div (x y : float64) : float64 := SFdiv prec emax x y.

Definition is_finite (x : float64) : bool :=
  match x with
  | S754_zero _ | S754_finite _ _ _ => true
  | S754_infinity _ | S754_nan => false
  end.

End F64.

Module Int64.

Definition min_int : Z := - 2 ^ 63.
Definition max_int : Z := 2 ^ 63 - 1.

(** Two's complement wrap-around of a 64-bit signed integer. *)
Definition wrap (z : Z) : Z := (z + 2 ^ 63) mod 2 ^ 64 - 2 ^ 63.

Definition add (a b : Z) : Z := wrap (a + b).

Definition in_range (z : Z) : bool := (min_int <=? z) && (z <=? max_int).

End Int64.

(** ** The numpy operations of the evaluation code

    A two-dimensional int64 array is the list of its rows, all of one
    length. *)

Module Np.

Definition ndarray2 := list (list Z).

Definition nrows (m : ndarray2) : nat := length m.
Definition ncols (m : ndarray2) : nat :=
  match m with
  | [] => O
  | row :: _ => length row
  end.

Definition entry (m : ndarray2) (r c : nat) : Z := nth c (nth r m []) 0.

(** [numpy.diagonal(m)]: the entries [m[i][i]] for [i < min(rows, cols)]. *)
Definition diagonal (m : ndarray2) : list Z :=
  map (fun i => entry m i i) (seq 0 (Nat.min (nrows m) (ncols m))).

(** [numpy.sum] of a one-dimensional int64 array wraps around. *)
Definition sum1 (v : list Z) : Z := fold_left Int64.add v 0.

(** [numpy.sum(m, axis=0)]: one sum per column. *)
Definition sum_axis0 (m : ndarray2) : list Z :=
  map (fun c => sum1 (map (fun row => nth c row 0) m)) (seq 0 (ncols m)).

(** [numpy.sum(m, axis=1)]: one sum per row. *)
Definition sum_axis1 (m : ndarray2) : list Z := map sum1 m.

(** [a / b] on two one-dimensional int64 arrays: both are converted to
    float64 and divided elementwise; a zero divisor gives inf or nan (with a
    warning, not an exception).  Arrays of different lengths broadcast only
    when one of them has a single element. *)
Definition true_divide (a b : list Z) : result (list F64.float64) :=
  let fdiv x y := F64.div (F64.of_int x) (F64.of_int y) in
  if (length a =? length b)%nat then Ok (zip_with fdiv a b)
  else match a, b with
       | _, [y] => Ok (map (fun x => fdiv x y) a)
       | [x], _ => Ok (map (fun y => fdiv x y) b)
       | _, _ => Raise (ValueError "operands could not be broadcast together")
       end.

End Np.

(** [Client.calculate_class_precision] *)
Definition calculate_class_precision (confusion_mat : Np.ndarray2)
  : result (list F64.float64) :=
  Np.true_divide (Np.diagonal confusion_mat) (Np.sum_axis0 confusion_mat).

(** [Client.calculate_class_recall] *)
Definition calculate_class_recall (confusion_mat : Np.ndarray2)
  : result (list F64.float64) :=
  Np.true_divide (Np.diagonal confusion_mat) (Np.sum_axis1 confusion_mat).


(** ** Tensors and parameter sets

    The element type of a tensor is left open: the code only adds, subtracts,
    multiplies and divides elements, in whatever float format the framework
    uses.  A tensor is the sequence of its elements, and its shape is the
    length of that sequence (tensors of rank one). *)

Class Scalar (R : Type) := {
  of_int : Z -> R;
  radd : R -> R -> R;
  rsub : R -> R -> R;
  rmul : R -> R -> R;
  rdiv : R -> R -> R
}.

Abbreviation Tensor R := (list R) (only parsing).

(** An [OrderedDict] from layer names to tensors, in insertion order. *)
Abbreviation StateDict R := (list (string * Tensor R)) (only parsing).

(** The Python objects that reach [diff_squared_sum] and [load_state_dict]:
    a [torch.nn.Module] (seen through [named_parameters()]), an
    [OrderedDict], a builtin [dict] (which is not an [OrderedDict]) and
    [None]. *)
Inductive PyObject (R : Type) :=
| PyModule (named_parameters : StateDict R)
| PyOrderedDict (items : StateDict R)
| PyDict (items : StateDict R)
| PyNone.
Arguments PyModule {R} named_parameters.
Arguments PyOrderedDict {R} items.
Arguments PyDict {R} items.
Arguments PyNone {R}.

Section Tensors.
Context {R : Type} {SR : Scalar R}.

Definition keys (sd : StateDict R) : list string := map fst sd.

(** [sd[name]], [None] when [name not in sd]. *)
Fixpoint sd_get (name : string) (sd : StateDict R) : option (Tensor R) :=
  match sd with
  | [] => None
  | (k, t) :: rest => if String.eqb k name then Some t else sd_get name rest
  end.

(** [name in sd] *)
Definition sd_mem (name : string) (sd : StateDict R) : bool :=
  match sd_get name sd with Some _ => true | None => false end.

(** An elementwise binary operation: the shapes must agree, or one operand
    has a single element and is broadcast; otherwise torch raises
    [RuntimeError]. *)
Definition broadcast2 (f : R -> R -> R) (a b : Tensor R) : result (Tensor R) :=
  if (length a =? length b)%nat then Ok (zip_with f a b)
  else match a, b with
       | _, [y] => Ok (map (fun x => f x y) a)
       | [x], _ => Ok (map (fun y => f x y) b)
       | _, _ => Raise (RuntimeError_size (length a) (length b))
       end.

(** [a - b] *)
Definition tensor_sub (a b : Tensor R) : result (Tensor R) := broadcast2 rsub a b.

(** [t ** 2] *)
Definition tensor_pow2 (t : Tensor R) : Tensor R := map (fun x => rmul x x) t.

(** [t.sum()] *)
Definition tensor_sum (t : Tensor R) : R := fold_left radd t (of_int 0).

(** The loop of [diff_squared_sum], the same in both branches:
<<
    for name, param2 in items:
        if name in params1:
            param1 = params1[name]
            dss += ((param1 - param2) ** 2).sum()
>> *)
Fixpoint dss_loop (params1 items : StateDict R) (dss : R) : result R :=
  match items with
  | [] => Ok dss
  | (name, param2) :: rest =>
      match sd_get name params1 with
      | Some param1 =>
          match tensor_sub param1 param2 with
          | Ok d => dss_loop params1 rest (radd dss (tensor_sum (tensor_pow2 d)))
          | Raise e => Raise e
          end
      | None => dss_loop params1 rest dss
      end
  end.

(** [Module._load_from_state_dict]: every entry of the network whose key is
    in [state_dict] and whose shape matches is overwritten in place
    ([param.copy_(input_param)]); a shape mismatch is recorded in
    [error_msgs], an absent key in [missing_keys] (under [strict]).
    Nothing is raised here. *)
Fixpoint load_from_state_dict (local_state state_dict : StateDict R) (strict : bool)
  : StateDict R * list string * list LoadError :=
  match local_state with
  | [] => ([], [], [])
  | (name, param) :: rest =>
      let '(rest', missing_keys, error_msgs) :=
        load_from_state_dict rest state_dict strict in
      match sd_get name state_dict with
      | Some input_param =>
          if (length input_param =? length param)%nat
          then ((name, input_param) :: rest', missing_keys, error_msgs)
          else ((name, param) :: rest', missing_keys, SizeMismatch name :: error_msgs)
      | None =>
          ((name, param) :: rest',
           if strict then name :: missing_keys else missing_keys,
           error_msgs)
      end
  end.

(** [Module.load_state_dict(state_dict, strict)]: the entries are loaded
    first; the missing and unexpected keys are turned into error messages
    afterwards, and [RuntimeError] is raised if there is any message.  The
    first component is the network's parameter set after the call, whether
    it raised or not. *)
Definition load_state_dict (net state_dict : StateDict R) (strict : bool)
  : StateDict R * result (list string * list string) :=
  let '(net', missing_keys, error_msgs) := load_from_state_dict net state_dict strict in
  let unexpected_keys :=
    if strict then filter (fun k => sd_mem k net = false) (keys state_dict) else [] in
  let error_msgs :=
    match unexpected_keys with
    | [] => error_msgs
    | _ => UnexpectedKeys unexpected_keys :: error_msgs
    end in
  let error_msgs :=
    match missing_keys with
    | [] => error_msgs
    | _ => MissingKeys missing_keys :: error_msgs
    end in
  match error_msgs with
  | [] => (net', Ok (missing_keys, unexpected_keys))
  | _ => (net', Raise (RuntimeError_load_state_dict error_msgs))
  end.

(** [copy.deepcopy]: values of the embedding are immutable, a copy is the
    value itself. *)
Definition deepcopy {A : Type} (x : A) : A := x.

End Tensors.

(** ** The operating system: paths and files *)

(** [s.endswith('/')] *)
Fixpoint ends_with_sep (s : string) : bool :=
  match s with
  | EmptyString => false
  | String c EmptyString => Ascii.eqb c "/"%char
  | String _ rest => ends_with_sep rest
  end.

(** [s.startswith('/')] *)
Definition starts_with_sep (s : string) : bool :=
  match s with
  | String c _ => Ascii.eqb c "/"%char
  | EmptyString => false
  end.

(** [os.path.join(a, b)] of [posixpath]:
<<
      if b.startswith(sep):                  path = b
      elif not path or path.endswith(sep):   path += b
      else:                                  path += sep + b
>> *)
Definition os_path_join (a b : string) : string :=
  if starts_with_sep b then b
  else if String.eqb a EmptyString || ends_with_sep a then a +:+ b
  else a +:+ "/" +:+ b.

Inductive Device := CPU | CUDA.

(** The directories that exist, and for each file the object that
    [torch.save] pickled into it. *)
Record FS (R : Type) := {
  fs_dirs : gset string;
  fs_files : gmap string (PyObject R)
}.
Arguments fs_dirs {R} f.
Arguments fs_files {R} f.
Arguments Build_FS {R} fs_dirs fs_files.

(** [os.path.exists(path)] *)
Definition os_path_exists {R} (fs : FS R) (path : string) : bool :=
  bool_decide (path ∈ fs_dirs fs) || bool_decide (is_Some (fs_files fs !! path)).

(** ** The framework and the process around the client

    The classes of torch, numpy and sklearn that the client drives are not
    part of [client.py]; each is an operation of the interface below, a
    function of what it reads.  [Gen] is the state of a random generator. *)

Class BackendTypes := {
  Batch : Type;
  Optimizer : Type;
  Scheduler : Type;
  DataLoader : Type;
  Gen : Type
}.

(** The process-wide random state: torch's generator, numpy's, the one of
    Python's [random], and the two cudnn flags. *)
Record ProcState `{BackendTypes} := {
  torch_rng : Gen;
  np_rng : Gen;
  py_rng : Gen;
  cudnn_deterministic : bool;
  cudnn_benchmark : bool
}.

Class Backend (R : Type) `{BackendTypes} := {
  (** [torch.manual_seed], [np.random.seed], [random.seed] *)
  torch_manual_seed : Z -> Gen;
  np_random_seed : Z -> Gen;
  random_seed : Z -> Gen;
  (** [model_class()]: a network with freshly drawn weights *)
  model_class : ProcState -> StateDict R * ProcState;
  (** one pass over a data loader *)
  iterate : DataLoader -> ProcState -> list Batch * ProcState;
  (** [loss_function(net(inputs), labels)], in training or evaluation mode *)
  forward_loss : StateDict R -> bool -> Batch -> ProcState -> R * ProcState;
  (** [optimizer.zero_grad(); ...; loss.backward(); optimizer.step()] *)
  backward_step :
    Optimizer -> StateDict R -> Batch -> R -> ProcState -> StateDict R * Optimizer * ProcState;
  (** [scheduler.step()] *)
  scheduler_step : Scheduler -> Optimizer -> Scheduler * Optimizer;
  (** [labels] of a batch and [torch.max(net(images).data, 1)[1]] *)
  batch_labels : Batch -> list Z;
  predict : StateDict R -> Batch -> list Z;
  (** [sklearn.metrics.confusion_matrix] *)
  confusion_matrix : list Z -> list Z -> Np.ndarray2;
  (** [torch.load(path, map_location)] *)
  torch_load : FS R -> string -> option Device -> result (PyObject R);
  (** the error, if any, with which the operating system refuses to create a
      directory or to write a file *)
  os_refuses_mkdir : FS R -> string -> option Exn;
  os_refuses_write : FS R -> string -> option Exn
}.

Section Client.
Context {R : Type} {SR : Scalar R} {BT : BackendTypes} {B : Backend R}.

(** What is observable of a run, in order. *)
Inductive Event :=
| LogDebug (msg : string) (args : list Z)
| LogInfoLoss (round i : Z) (mean_loss : R)
| LogWarning (msg : string)
| EvMkdir (path : string)
| EvTorchSave (path : string) (obj : PyObject R)
| EvTorchLoad (path : string) (map_location : option Device)
| EvOptimizerStep (primary loss : R)
| EvSchedulerStep.

(** The accessors of the experiment arguments that the client calls. *)
Record Arguments := {
  get_log_interval : Z;
  get_default_model_folder_path : string;
  get_save_model_folder_path : string;
  get_cr_save_start_suffix : string;
  get_cr_save_end_suffix : string;
  get_net_name : string
}.

Record Net := {
  state_dict : StateDict R;
  training : bool
}.

Record Client := {
  args : Arguments;
  client_idx : Z;
  net : Net;
  optimizer : Optimizer;
  scheduler : Scheduler;
  mu : R;
  train_data_loader : DataLoader;
  test_data_loader : DataLoader
}.

Record World := {
  fs : FS R;
  proc : ProcState;
  trace : list Event
}.

Record State := {
  self : Client;
  world : World
}.

(** A method: from the state before the call to the state after it and
    the value returned or the exception raised. *)
Definition M (A : Type) : Type := State -> State * result A.

#[export] Instance M_ret : MRet M := fun A x s => (s, Ok x).
#[export] Instance M_bind : MBind M := fun A B k m s =>
  match m s with
  | (s', Ok a) => k a s'
  | (s', Raise e) => (s', Raise e)
  end.

Definition raise {A} (e : Exn) : M A := fun s => (s, Raise e).
Definition get_self : M Client := fun s => (s, Ok (self s)).
Definition get_world : M World := fun s => (s, Ok (world s)).
Definition set_self (c : Client) : M unit :=
  fun s => ({| self := c; world := world s |}, Ok tt).
Definition set_world (w : World) : M unit :=
  fun s => ({| self := self s; world := w |}, Ok tt).

Definition emit (e : Event) : M unit :=
  w ← get_world;
  set_world {| fs := fs w; proc := proc w; trace := trace w ++ [e] |}.
Definition set_fs (f : FS R) : M unit :=
  w ← get_world;
  set_world {| fs := f; proc := proc w; trace := trace w |}.
Definition set_proc (p : ProcState) : M unit :=
  w ← get_world;
  set_world {| fs := fs w; proc := p; trace := trace w |}.
Definition set_net (n : Net) : M unit :=
  c ← get_self;
  set_self {| args := args c; client_idx := client_idx c; net := n;
              optimizer := optimizer c; scheduler := scheduler c; mu := mu c;
              train_data_loader := train_data_loader c;
              test_data_loader := test_data_loader c |}.
Definition set_optimizer (o : Optimizer) : M unit :=
  c ← get_self;
  set_self {| args := args c; client_idx := client_idx c; net := net c;
              optimizer := o; scheduler := scheduler c; mu := mu c;
              train_data_loader := train_data_loader c;
              test_data_loader := test_data_loader c |}.
Definition set_scheduler (sc : Scheduler) : M unit :=
  c ← get_self;
  set_self {| args := args c; client_idx := client_idx c; net := net c;
              optimizer := optimizer c; scheduler := sc; mu := mu c;
              train_data_loader := train_data_loader c;
              test_data_loader := test_data_loader c |}.

(** [os.mkdir(path)] *)
Definition os_mkdir (path : string) : M unit :=
  w ← get_world;
  match os_refuses_mkdir (fs w) path with
  | Some e => raise e
  | None =>
      if os_path_exists (fs w) path then raise (OSError 17)
      else
        set_fs {| fs_dirs := {[path]} ∪ fs_dirs (fs w); fs_files := fs_files (fs w) |};;
        emit (EvMkdir path)
  end.

(** [torch.save(obj, path)] *)
Definition torch_save (obj : PyObject R) (path : string) : M unit :=
  w ← get_world;
  match os_refuses_write (fs w) path with
  | Some e => raise e
  | None =>
      set_fs {| fs_dirs := fs_dirs (fs w); fs_files := <[path := obj]> (fs_files (fs w)) |};;
      emit (EvTorchSave path obj)
  end.

(** [Client.get_nn_parameters] *)
Definition get_nn_parameters : M (StateDict R) :=
  c ← get_self; mret (state_dict (net c)).

(** [Client.get_mu] *)
Definition get_mu : M R := c ← get_self; mret (mu c).

(** [Client.update_nn_parameters]:
<<
    self.net.load_state_dict(copy.deepcopy(new_params), strict=True)
>> *)
Definition update_nn_parameters (new_params : StateDict R) : M unit :=
  c ← get_self;
  let '(sd', r) := load_state_dict (state_dict (net c)) (deepcopy new_params) true in
  set_net {| state_dict := sd'; training := training (net c) |};;
  match r with
  | Ok _ => mret tt
  | Raise e => raise e
  end.

(** [Client.diff_squared_sum] *)
Definition diff_squared_sum (model2 : PyObject R) : M R :=
  let dss := of_int 0 in
  params1 ← get_nn_parameters;
  match model2 with
  | PyModule named_parameters =>
      match dss_loop params1 named_parameters dss with
      | Ok dss => mret dss
      | Raise e => raise e
      end
  | PyOrderedDict items =>
      match dss_loop params1 items dss with
      | Ok dss => mret dss
      | Raise e => raise e
      end
  | _ =>
      raise (ValueError
               "Unsupported model type. Model must be a PyTorch model or an OrderedDict.")
  end.

(** [Client.save_model] *)
Definition save_model (epoch : Z) (suffix : string) : M unit :=
  c ← get_self;
  emit (LogDebug "Saving model to flat file storage. Save #{}" [epoch]);;
  w ← get_world;
  (if negb (os_path_exists (fs w) (get_save_model_folder_path (args c)))
   then os_mkdir (get_save_model_folder_path (args c))
   else mret tt);;
  let full_save_path :=
    os_path_join (get_save_model_folder_path (args c))
      ("model_" +:+ pretty (client_idx c) +:+ "_" +:+ pretty epoch +:+ "_"
         +:+ suffix +:+ ".model") in
  emit (LogDebug ("Saving model to: " +:+ full_save_path) []);;
  params ← get_nn_parameters;
  torch_save (PyOrderedDict params) full_save_path.

(** [model.load_state_dict(torch.load(path, map_location))] on the local
    [model]: the model after the attempt, and how the attempt ended. *)
Definition module_load_state_dict (model : Net) (obj : PyObject R)
  : Net * result unit :=
  match obj with
  | PyOrderedDict items | PyDict items =>
      let '(sd', r) := load_state_dict (state_dict model) items true in
      ({| state_dict := sd'; training := training model |},
       match r with Ok _ => Ok tt | Raise e => Raise e end)
  | _ => (model, Raise (TypeError "Expected state_dict to be dict-like"))
  end.

Definition load_weights (model : Net) (path : string) (map_location : option Device)
  : M (Net * result unit) :=
  w ← get_world;
  emit (EvTorchLoad path map_location);;
  match torch_load (fs w) path map_location with
  | Ok obj => mret (module_load_state_dict model obj)
  | Raise e => mret (model, Raise e)
  end.

(** [Client.load_model_from_file] *)
Definition load_model_from_file (model_file_path : string) : M Net :=
  w ← get_world;
  let '(weights, p) := model_class (proc w) in
  set_proc p;;
  let model := {| state_dict := weights; training := true |} in
  w ← get_world;
  if os_path_exists (fs w) model_file_path then
    '(model, r) ← load_weights model model_file_path None;
    match r with
    | Ok _ => mret model
    | Raise _ =>
        emit (LogWarning
                "Couldn't load model. Attempting to map CUDA tensors to CPU to solve error.");;
        '(model, r) ← load_weights model model_file_path (Some CPU);
        match r with
        | Ok _ => mret model
        | Raise e => raise e
        end
    end
  else
    emit (LogWarning ("Could not find model: " +:+ model_file_path));;
    mret model.

(** [Client.load_default_model] *)
Definition load_default_model : M Net :=
  c ← get_self;
  let default_model_path :=
    os_path_join (get_default_model_folder_path (args c))
      (get_net_name (args c) +:+ ".model") in
  load_model_from_file default_model_path.

(** The seeds that the libraries take: [torch.manual_seed] takes an int in
    [-2**63, 2**64 - 1] and raises [RuntimeError] for another;
    [np.random.seed] takes an int in [0, 2**32 - 1] and raises [ValueError]
    for another; [random.seed] takes every int. *)
Definition torch_accepts_seed (seed : Z) : bool :=
  (- 2 ^ 63 <=? seed) && (seed <=? 2 ^ 64 - 1).
Definition np_accepts_seed (seed : Z) : bool :=
  (0 <=? seed) && (seed <=? 2 ^ 32 - 1).

(** The seeding block of [train], statement by statement:
<<
    torch.manual_seed(seed)
    np.random.seed(seed)
    random.seed(seed)
    torch.backends.cudnn.deterministic = True
    torch.backends.cudnn.benchmark = False
>> *)
Definition seed_everything (seed : Z) : M unit :=
  w ← get_world;
  (if torch_accepts_seed seed then
     set_proc {| torch_rng := torch_manual_seed seed;
                 np_rng := np_rng (proc w);
                 py_rng := py_rng (proc w);
                 cudnn_deterministic := cudnn_deterministic (proc w);
                 cudnn_benchmark := cudnn_benchmark (proc w) |}
   else raise (RuntimeError "Overflow when unpacking long"));;
  w ← get_world;
  (if np_accepts_seed seed then
     set_proc {| torch_rng := torch_rng (proc w);
                 np_rng := np_random_seed seed;
                 py_rng := py_rng (proc w);
                 cudnn_deterministic := cudnn_deterministic (proc w);
                 cudnn_benchmark := cudnn_benchmark (proc w) |}
   else raise (ValueError "Seed must be between 0 and 2**32 - 1"));;
  w ← get_world;
  set_proc {| torch_rng := torch_rng (proc w);
              np_rng := np_rng (proc w);
              py_rng := random_seed seed;
              cudnn_deterministic := cudnn_deterministic (proc w);
              cudnn_benchmark := cudnn_benchmark (proc w) |};;
  w ← get_world;
  set_proc {| torch_rng := torch_rng (proc w);
              np_rng := np_rng (proc w);
              py_rng := py_rng (proc w);
              cudnn_deterministic := true;
              cudnn_benchmark := cudnn_benchmark (proc w) |};;
  w ← get_world;
  set_proc {| torch_rng := torch_rng (proc w);
              np_rng := np_rng (proc w);
              py_rng := py_rng (proc w);
              cudnn_deterministic := cudnn_deterministic (proc w);
              cudnn_benchmark := false |}.

(** [range(n)] and [enumerate(l, 0)] *)
Definition range (n : Z) : list Z := map Z.of_nat (seq 0 (Z.to_nat n)).
Definition enumerate {A} (l : list A) : list (Z * A) :=
  imap (fun i x => (Z.of_nat i, x)) l.

(** The loss that is backpropagated for one batch:
<<
    loss = self.loss_function(outputs, labels)
    if (type in ["fed_prox", "fed_greedy"]):
        mu = self.get_mu()
        loss += (mu / 2) * self.diff_squared_sum(server_model)
>> *)
Definition batch_loss (type : string) (server_model : StateDict R) (primary : R) : M R :=
  if bool_decide (type ∈ ["fed_prox"; "fed_greedy"]) then
    mu ← get_mu;
    dss ← diff_squared_sum (PyOrderedDict server_model);
    mret (radd primary (rmul (rdiv mu (of_int 2)) dss))
  else mret primary.

(** The body of the inner loop of [train], for the batches that are left. *)
Fixpoint train_batches (round epoch epochs : Z) (type : string)
    (server_model : StateDict R) (batches : list (Z * Batch)) (running_loss : R)
  : M R :=
  match batches with
  | [] => mret running_loss
  | (i, batch) :: rest =>
      c ← get_self;
      w ← get_world;
      let '(primary, p) :=
        forward_loss (state_dict (net c)) (training (net c)) batch (proc w) in
      set_proc p;;
      loss ← batch_loss type server_model primary;
      c ← get_self;
      w ← get_world;
      let '(sd', opt', p') :=
        backward_step (optimizer c) (state_dict (net c)) batch loss (proc w) in
      set_net {| state_dict := sd'; training := training (net c) |};;
      set_optimizer opt';;
      set_proc p';;
      emit (EvOptimizerStep primary loss);;
      let running_loss := radd running_loss loss in
      if get_log_interval (args c) =? 0 then raise ZeroDivisionError
      else if (i mod get_log_interval (args c) =? 0) && (epoch =? epochs - 1) then
        emit (LogInfoLoss round i
                (rdiv running_loss (of_int (get_log_interval (args c)))));;
        train_batches round epoch epochs type server_model rest (of_int 0)
      else
        train_batches round epoch epochs type server_model rest running_loss
  end.

(** The outer loop of [train], for the epochs that are left;
    [running_loss] is [None] while the local variable is unbound. *)
Fixpoint train_epochs (round epochs : Z) (type : string)
    (server_model : StateDict R) (todo : list Z) (running_loss : option R)
  : M (option R) :=
  match todo with
  | [] => mret running_loss
  | epoch :: rest =>
      c ← get_self;
      set_net {| state_dict := state_dict (net c); training := true |};;
      save_model round (get_cr_save_start_suffix (args c));;
      w ← get_world;
      let '(batches, p) := iterate (train_data_loader c) (proc w) in
      set_proc p;;
      running_loss ←
        train_batches round epoch epochs type server_model (enumerate batches) (of_int 0);
      c ← get_self;
      let '(sched', opt') := scheduler_step (scheduler c) (optimizer c) in
      set_scheduler sched';;
      set_optimizer opt';;
      emit EvSchedulerStep;;
      train_epochs round epochs type server_model rest (Some running_loss)
  end.

(** [Client.train] *)
Definition train (round epochs : Z) (type : string) (seed : option Z) : M R :=
  match seed with
  | Some seed => seed_everything seed
  | None => mret tt
  end;;
  params ← get_nn_parameters;
  let server_model := deepcopy params in
  running_loss ← train_epochs round epochs type server_model (range epochs) None;
  c ← get_self;
  save_model round (get_cr_save_end_suffix (args c));;
  match running_loss with
  | Some running_loss => mret running_loss
  | None => raise (UnboundLocalError "running_loss")
  end.

(** [a / b] on two Python ints. *)
Definition int_truediv (a b : Z) : result F64.float64 :=
  if b =? 0 then Raise ZeroDivisionError
  else Ok (F64.div (F64.of_int a) (F64.of_int b)).

Definition lift {A} (r : result A) : M A := fun s => (s, r).

(** [(predicted == labels).sum().item()] *)
Definition count_equal (predicted labels : list Z) : Z :=
  Z.of_nat (length (filter (fun pl => fst pl = snd pl) (zip predicted labels))).

(** What the loop of [test] accumulates. *)
Record TestAcc := {
  correct : Z;
  total : Z;
  targets_ : list Z;
  pred_ : list Z;
  loss_sum : R
}.

Fixpoint test_batches (batches : list Batch) (acc : TestAcc) : M TestAcc :=
  match batches with
  | [] => mret acc
  | batch :: rest =>
      c ← get_self;
      w ← get_world;
      let labels := batch_labels batch in
      let predicted := predict (state_dict (net c)) batch in
      let '(l, p) :=
        forward_loss (state_dict (net c)) (training (net c)) batch (proc w) in
      set_proc p;;
      test_batches rest
        {| total := total acc + Z.of_nat (length labels);
           correct := correct acc + count_equal predicted labels;
           targets_ := targets_ acc ++ labels;
           pred_ := pred_ acc ++ predicted;
           loss_sum := radd (loss_sum acc) l |}
  end.

(** [Client.test] *)
Definition test (log : bool)
  : M (F64.float64 * R * list F64.float64 * list F64.float64) :=
  c ← get_self;
  set_net {| state_dict := state_dict (net c); training := false |};;
  w ← get_world;
  let '(batches, p) := iterate (test_data_loader c) (proc w) in
  set_proc p;;
  acc ← test_batches batches
        {| correct := 0; total := 0; targets_ := []; pred_ := []; loss_sum := of_int 0 |};
  accuracy ← lift (int_truediv (100 * correct acc) (total acc));
  let confusion_mat := confusion_matrix (targets_ acc) (pred_ acc) in
  class_precision ← lift (calculate_class_precision confusion_mat);
  class_recall ← lift (calculate_class_recall confusion_mat);
  (if log then
     emit (LogDebug "Test set: Accuracy: {}/{} ({:.0f}%)" [correct acc; total acc]);;
     emit (LogDebug "Test set: Loss: {}" []);;
     emit (LogDebug "Classification Report:" []);;
     emit (LogDebug "Confusion Matrix:" []);;
     emit (LogDebug "Class precision: {}" []);;
     emit (LogDebug "Class recall: {}" [])
   else mret tt);;
  mret (accuracy, loss_sum acc, class_precision, class_recall).

(** [Client.set_mu] *)
Definition set_mu (mu' : R) : M unit :=
  c ← get_self;
  set_self {| args := args c; client_idx := client_idx c; net := net c;
              optimizer := optimizer c; scheduler := scheduler c; mu := mu';
              train_data_loader := train_data_loader c;
              test_data_loader := test_data_loader c |}.

(** [Client.get_attributes_name]:
<<
    att_name = []
    for (data, target) in self.train_data_loader:
        att_name.extend([t.item() for t in target])
    return set(att_name)
>> *)
Definition get_attributes_name : M (gset Z) :=
  c ← get_self;
  w ← get_world;
  let '(batches, p) := iterate (train_data_loader c) (proc w) in
  set_proc p;;
  let att_name :=
    fold_left (fun att_name batch => (att_name ++ batch_labels batch)%list) batches [] in
  mret (list_to_set att_name).

End Client.

Arguments Event R : clear implicits.
Arguments Net R : clear implicits.
Arguments Client R {BT}.
Arguments World R {BT}.
Arguments State R {BT}.
Arguments M R {BT} A.

(** ** A small instance of the interface

    Exact rational arithmetic for the elements; a data loader is the list of
    its batches, a batch a list of (predicted class, label) pairs; one
    forward pass reports the batch size plus the state of torch's generator
    and advances that generator, one optimizer step subtracts the loss from
    every element.  Loading a file on
    the default device fails, loading it mapped to the CPU gives back what was
    saved; the operating system refuses nothing. *)

Module Toy.

#[export] Instance Qc_Scalar : Scalar Qc := {|
  of_int z := Q2Qc (inject_Z z);
  radd := Qcplus;
  rsub := Qcminus;
  rmul := Qcmult;
  rdiv := Qcdiv
|}.

#[export] Instance types : BackendTypes := {|
  Batch := list (Z * Z);
  Optimizer := nat;
  Scheduler := nat;
  DataLoader := list (list (Z * Z));
  Gen := Z
|}.

#[export] Instance backend : Backend Qc := {|
  torch_manual_seed seed := seed;
  np_random_seed seed := seed;
  random_seed seed := seed;
  model_class p := ([("w", [of_int 0])], p);
  iterate loader p := (loader, p);
  forward_loss sd mode batch p :=
    (of_int (Z.of_nat (length batch) + torch_rng p),
     {| torch_rng := torch_rng p + 1; np_rng := np_rng p; py_rng := py_rng p;
        cudnn_deterministic := cudnn_deterministic p;
        cudnn_benchmark := cudnn_benchmark p |});
  backward_step opt sd batch loss p :=
    (map (fun kt => (fst kt, map (fun x => rsub x loss) (snd kt))) sd, S opt, p);
  scheduler_step sched opt := (S sched, opt);
  batch_labels batch := map snd batch;
  predict sd batch := map fst batch;
  confusion_matrix targets preds := [[Z.of_nat (length targets)]];
  torch_load fs path map_location :=
    match fs_files fs !! path, map_location with
    | Some obj, Some _ => Ok obj
    | Some _, None => Raise (OtherError "Attempting to deserialize object on a CUDA device")
    | None, _ => Raise (OSError 2)
    end;
  os_refuses_mkdir fs path := None;
  os_refuses_write fs path := None
|}.

Definition q (z : Z) : Qc := of_int z.

Definition arguments : Arguments := {|
  get_log_interval := 1;
  get_default_model_folder_path := "default_models";
  get_save_model_folder_path := "models";
  get_cr_save_start_suffix := "start";
  get_cr_save_end_suffix := "end";
  get_net_name := "Net"
|}.

Definition client (params : StateDict Qc) (loader : list (list (Z * Z))) : Client Qc := {|
  args := arguments;
  client_idx := 7;
  net := {| state_dict := params; training := false |};
  optimizer := O;
  scheduler := O;
  mu := of_int 2;
  train_data_loader := loader;
  test_data_loader := loader
|}.

Definition empty_world : World Qc := {|
  fs := {| fs_dirs := ∅; fs_files := ∅ |};
  proc := {| torch_rng := 0; np_rng := 0; py_rng := 0;
             cudnn_deterministic := false; cudnn_benchmark := true |};
  trace := []
|}.

Definition state (params : StateDict Qc) (loader : list (list (Z * Z))) : State Qc :=
  {| self := client params loader; world := empty_world |}.

End Toy.

(** The same instance on a read-only file system: every write is refused
    with [EROFS]. *)

Module ReadOnly.

Definition backend : Backend Qc := {|
  torch_manual_seed := @torch_manual_seed Qc _ Toy.backend;
  np_random_seed := @np_random_seed Qc _ Toy.backend;
  random_seed := @random_seed Qc _ Toy.backend;
  model_class := @model_class Qc _ Toy.backend;
  iterate := @iterate Qc _ Toy.backend;
  forward_loss := @forward_loss Qc _ Toy.backend;
  backward_step := @backward_step Qc _ Toy.backend;
  scheduler_step := @scheduler_step Qc _ Toy.backend;
  batch_labels := @batch_labels Qc _ Toy.backend;
  predict := @predict Qc _ Toy.backend;
  confusion_matrix := @confusion_matrix Qc _ Toy.backend;
  torch_load := @torch_load Qc _ Toy.backend;
  os_refuses_mkdir fs path := None;
  os_refuses_write fs path := Some (OSError 30)
|}.

End ReadOnly.

(** The toy client with a logging interval of [0]. *)
Module Unlogged.
Import Toy.

Definition arguments : Arguments := {|
  get_log_interval := 0;
  get_default_model_folder_path := "default_models";
  get_save_model_folder_path := "models";
  get_cr_save_start_suffix := "start";
  get_cr_save_end_suffix := "end";
  get_net_name := "Net"
|}.

Definition state (params : StateDict Qc) (loader : list (list (Z * Z))) : State Qc :=
  {| self := {| args := arguments; client_idx := 7;
                net := {| state_dict := params; training := false |};
                optimizer := O; scheduler := O; mu := of_int 2;
                train_data_loader := loader; test_data_loader := loader |};
     world := Toy.empty_world |}.

End Unlogged.

(** * The vocabulary of the properties *)

Section Vocabulary.
Context {R : Type} {SR : Scalar R} {BT : BackendTypes} {B : Backend R}.

(** The sums of the specification, over the integers. *)
Definition list_sum_Z (v : list Z) : Z := foldr Z.add 0 v.
Definition col_sum (m : Np.ndarray2) (c : nat) : Z :=
  list_sum_Z (map (fun row => nth c row 0) m).
Definition row_sum (m : Np.ndarray2) (r : nat) : Z := list_sum_Z (nth r m []).
Definition matrix_total (m : Np.ndarray2) : Z := list_sum_Z (map list_sum_Z m).

(** An [n] by [n] matrix of counts whose total fits an int64. *)
Definition is_confusion_matrix (n : nat) (m : Np.ndarray2) : Prop :=
  length m = n /\
  Forall (fun row => length row = n) m /\
  Forall (Forall (fun x => 0 <= x)) m /\
  matrix_total m <= Int64.max_int.

Definition fdiv (x y : Z) : F64.float64 := F64.div (F64.of_int x) (F64.of_int y).

(** Layer names of the network that [new_params] lacks, and names of
    [new_params] that the network lacks. *)
Definition missing_in (net_sd new_params : StateDict R) : list string :=
  filter (fun k => sd_mem k new_params = false) (keys net_sd).
Definition unexpected_in (net_sd new_params : StateDict R) : list string :=
  filter (fun k => sd_mem k net_sd = false) (keys new_params).
Definition key_mismatch (net_sd new_params : StateDict R) : Prop :=
  missing_in net_sd new_params <> [] \/ unexpected_in net_sd new_params <> [].

(** What one entry of the network holds after the load. *)
Definition loaded_entry (new_params : StateDict R) (e : string * Tensor R)
  : string * Tensor R :=
  match sd_get (fst e) new_params with
  | Some input_param =>
      if (length input_param =? length (snd e))%nat then (fst e, input_param) else e
  | None => e
  end.

(** The arguments [diff_squared_sum] accepts. *)
Definition accepted (model2 : PyObject R) : bool :=
  match model2 with
  | PyModule _ | PyOrderedDict _ => true
  | PyDict _ | PyNone => false
  end.

Definition entries (model2 : PyObject R) : StateDict R :=
  match model2 with
  | PyModule items | PyOrderedDict items | PyDict items => items
  | PyNone => []
  end.

(** The specification's sum: over the entries of [items] whose name is
    also in [params1], the squared differences of the elements, summed. *)
Definition shared (params1 items : StateDict R) : StateDict R :=
  filter (fun e => sd_mem (fst e) params1 = true) items.
Definition squared_distance (a b : Tensor R) : R :=
  tensor_sum (map (fun d => rmul d d) (zip_with rsub a b)).
Definition shared_squared_distance (params1 items : StateDict R) : R :=
  fold_left radd
    (map (fun e => squared_distance (default [] (sd_get (fst e) params1)) (snd e))
         (shared params1 items))
    (of_int 0).

(** Every tensor of [items] has the shape of the tensor of the same name
    in [params1]. *)
Definition same_shapes (params1 items : StateDict R) : bool :=
  forallb (fun e => match sd_get (fst e) params1 with
                    | Some param1 => (length param1 =? length (snd e))%nat
                    | None => true
                    end) items.

(** The three facts of arithmetic that the single-parameter case needs;
    they hold for exact arithmetic and for IEEE floats alike (a square is
    never the negative zero). *)
Class ScalarLaws : Prop := {
  radd_0_square : forall d, radd (of_int 0) (rmul d d) = rmul d d;
  rmul_1_l : forall x, rmul (of_int 1) x = x;
  rdiv_2_2 : rdiv (of_int 2) (of_int 2) = of_int 1
}.

Definition shapes (sd : StateDict R) : list (string * nat) :=
  map (fun e => (fst e, length (snd e))) sd.

(** [<save_model_dir>/model_<client_idx>_<round>_<suffix>.model] *)
Definition checkpoint_path (dir : string) (idx round : Z) (suffix : string) : string :=
  dir +:+ "/" +:+ "model_" +:+ pretty idx +:+ "_" +:+ pretty round +:+ "_"
      +:+ suffix +:+ ".model".

(** A directory name that is not empty and does not end in a separator. *)
Definition plain_dir (dir : string) : Prop :=
  dir <> EmptyString /\ ends_with_sep dir = false.

(** The file system once [dir] is there. *)
Definition ensure_dir (f : FS R) (dir : string) : FS R :=
  if os_path_exists f dir then f
  else {| fs_dirs := {[dir]} ∪ fs_dirs f; fs_files := fs_files f |}.

(** [full_save_path] of [save_model], as the code builds it. *)
Definition full_save_path (c : Client R) (epoch : Z) (suffix : string) : string :=
  os_path_join (get_save_model_folder_path (args c))
    ("model_" +:+ pretty (client_idx c) +:+ "_" +:+ pretty epoch +:+ "_"
       +:+ suffix +:+ ".model").

(** What [save_model] appends to the trace. *)
Definition save_model_events (s : State R) (epoch : Z) (suffix : string) : list (Event R) :=
  let dir := get_save_model_folder_path (args (self s)) in
  let path := full_save_path (self s) epoch suffix in
  [LogDebug "Saving model to flat file storage. Save #{}" [epoch]]
    ++ (if os_path_exists (fs (world s)) dir then [] else [EvMkdir dir])
    ++ [LogDebug ("Saving model to: " +:+ path) [];
        EvTorchSave path (PyOrderedDict (state_dict (net (self s))))].

(** The operating system lets [save_model] create the directory (if it has
    to) and write the file. *)
Definition os_permits_save (s : State R) (epoch : Z) (suffix : string) : Prop :=
  let dir := get_save_model_folder_path (args (self s)) in
  let path := full_save_path (self s) epoch suffix in
  (os_path_exists (fs (world s)) dir = false -> os_refuses_mkdir (fs (world s)) dir = None)
  /\ os_refuses_write (ensure_dir (fs (world s)) dir) path = None.

(** An optimizer step updates the tensors in place: names and shapes stay. *)
Definition shape_preserving : Prop :=
  forall opt sd batch loss p,
    shapes (fst (fst (backward_step opt sd batch loss p))) = shapes sd.

(** The operating system refuses no [mkdir] and no write. *)
Definition os_never_refuses : Prop :=
  forall (f : FS R) (path : string),
    os_refuses_mkdir f path = None /\ os_refuses_write f path = None.

(** The paths written by [torch.save] and the gradient steps, in order. *)
Definition torch_saves (tr : list (Event R)) : list string :=
  omap (fun e => match e with EvTorchSave path _ => Some path | _ => None end) tr.
Definition optimizer_steps (tr : list (Event R)) : list (R * R) :=
  omap (fun e => match e with EvOptimizerStep p l => Some (p, l) | _ => None end) tr.

(** The losses that [train] logs, in order. *)
Definition loss_logs (tr : list (Event R)) : list (Z * Z * R) :=
  omap (fun e => match e with LogInfoLoss round i v => Some (round, i, v) | _ => None end) tr.

(** One [model.load_state_dict(torch.load(path, map_location))]: the model
    after the attempt and how the attempt ended. *)
Definition attempt (model : Net R) (f : FS R) (path : string)
    (map_location : option Device) : Net R * result unit :=
  match torch_load f path map_location with
  | Ok obj => module_load_state_dict model obj
  | Raise e => (model, Raise e)
  end.

(** The number of samples that the batches hold. *)
Definition sample_count (batches : list Batch) : nat :=
  sum_list (map (fun b => length (batch_labels b)) batches).

(** The checkpoints written and the gradient steps taken, in order:
    [Some path] for a [torch.save], [None] for an optimizer step. *)
Definition saves_and_steps (tr : list (Event R)) : list (option string) :=
  omap (fun e => match e with
                 | EvTorchSave path _ => Some (Some path)
                 | EvOptimizerStep _ _ => Some None
                 | _ => None
                 end) tr.

(** An [r] by [c] array. *)
Definition rectangular (r c : nat) (m : Np.ndarray2) : Prop :=
  length m = r /\ Forall (fun row => length row = c) m.

(** Every name of [items] is bound in [params] to the very tensor that
    [items] gives it; so it is for an [OrderedDict] against itself. *)
Definition all_zero_diff (sd : StateDict R) : Prop :=
  Forall (fun e => Forall (fun x => rsub x x = of_int 0) (snd e)) sd.

(** A seed that the seeding block of [train] takes: no seed at all, or an
    int between [0] and [2**32 - 1]. *)
Definition seed_accepted (seed : option Z) : Prop :=
  match seed with
  | Some seed => 0 <= seed <= 2 ^ 32 - 1
  | None => True
  end.

(** The random state once the seeding block of [train] has run. *)
Definition seeded_proc (seed : option Z) (p : ProcState) : ProcState :=
  match seed with
  | Some seed =>
      {| torch_rng := torch_manual_seed seed; np_rng := np_random_seed seed;
         py_rng := random_seed seed; cudnn_deterministic := true;
         cudnn_benchmark := false |}
  | None => p
  end.

(** The number of matching predictions over the batches, and the labels and
    predictions of the whole pass. *)
Definition correct_count (params : StateDict R) (batches : list Batch) : Z :=
  list_sum_Z (map (fun b => count_equal (predict params b) (batch_labels b)) batches).
Definition all_labels (batches : list Batch) : list Z :=
  concat (map batch_labels batches).
Definition all_predictions (params : StateDict R) (batches : list Batch) : list Z :=
  concat (map (predict params) batches).

(** The scheduler steps of a trace. *)
Definition scheduler_steps (tr : list (Event R)) : nat :=
  length (omap (fun e => match e with EvSchedulerStep => Some tt | _ => None end) tr).

(** The part of the client that no method changes. *)
Definition configuration (c : Client R) : Arguments * Z * DataLoader * DataLoader :=
  (args c, client_idx c, train_data_loader c, test_data_loader c).

(** The state once the seeding block of [train] has run. *)
Definition seeded (seed : option Z) (s : State R) : State R :=
  {| self := self s;
     world := {| fs := fs (world s); proc := seeded_proc seed (proc (world s));
                 trace := trace (world s) |} |}.

(** A logged loss [(round, i, value)] of the round [round] at a batch index
    that the logging interval divides. *)
Definition logged_for (round interval : Z) (l : Z * Z * R) : Prop :=
  l.1.1 = round /\ interval <> 0 /\ l.1.2 mod interval = 0.

(** The batch indices of the logged losses, in order. *)
Definition logged_indices (tr : list (Event R)) : list Z :=
  map (fun l : Z * Z * R => l.1.2) (loss_logs tr).

End Vocabulary.

(** * Properties *)

(** ** Per-class precision and recall *)

Section Metrics.

Lemma wrap_small z : Int64.min_int <= z <= Int64.max_int -> Int64.wrap z = z.
Proof.
  unfold Int64.wrap, Int64.min_int, Int64.max_int. intros Hz.
  rewrite Z.mod_small; lia.
Qed.

Lemma list_sum_Z_nonneg v : Forall (fun x => 0 <= x) v -> 0 <= list_sum_Z v.
Proof. induction 1; simpl; lia. Qed.

Lemma sum1_acc v : forall acc,
  Forall (fun x => 0 <= x) v -> 0 <= acc -> acc + list_sum_Z v <= Int64.max_int ->
  fold_left Int64.add v acc = acc + list_sum_Z v.
Proof.
  induction v as [|x v IH]; intros acc Hv Hacc Hle; simpl in *; [lia|].
  inversion Hv as [|? ? Hx Hv']; subst.
  pose proof (list_sum_Z_nonneg v Hv') as Hs.
  unfold Int64.add at 2. rewrite wrap_small by (unfold Int64.min_int; lia).
  rewrite IH; [lia | done | lia | lia].
Qed.

Lemma sum1_exact v :
  Forall (fun x => 0 <= x) v -> list_sum_Z v <= Int64.max_int ->
  Np.sum1 v = list_sum_Z v.
Proof. intros Hv Hle. unfold Np.sum1. rewrite sum1_acc; [lia | done | lia | lia]. Qed.

Lemma nth_nonneg (row : list Z) c : Forall (fun x => 0 <= x) row -> 0 <= nth c row 0.
Proof.
  intros H. revert c. induction H; intros [|c]; simpl; try lia. apply IHForall.
Qed.

Lemma nth_le_sum (row : list Z) c :
  Forall (fun x => 0 <= x) row -> nth c row 0 <= list_sum_Z row.
Proof.
  intros H. revert c. induction H as [|x row Hx Hrow IH]; intros [|c]; simpl; try lia.
  - pose proof (list_sum_Z_nonneg row Hrow). lia.
  - specialize (IH c). lia.
Qed.

Lemma col_sum_le_total m c :
  Forall (Forall (fun x => 0 <= x)) m -> col_sum m c <= matrix_total m.
Proof.
  unfold col_sum, matrix_total. induction 1 as [|row m Hrow Hm IH]; simpl; [lia|].
  pose proof (nth_le_sum row c Hrow). lia.
Qed.

Lemma matrix_total_nonneg m :
  Forall (Forall (fun x => 0 <= x)) m -> 0 <= matrix_total m.
Proof.
  unfold matrix_total. induction 1 as [|row m Hrow Hm IH]; simpl; [lia|].
  pose proof (list_sum_Z_nonneg row Hrow). lia.
Qed.

Lemma row_sum_le_total m r :
  Forall (Forall (fun x => 0 <= x)) m -> row_sum m r <= matrix_total m.
Proof.
  unfold row_sum. intros H. revert r.
  induction H as [|row m Hrow Hm IH]; intros [|r]; simpl; try (unfold matrix_total; simpl; lia).
  - pose proof (matrix_total_nonneg m Hm). unfold matrix_total in *. simpl. lia.
  - specialize (IH r). pose proof (list_sum_Z_nonneg row Hrow).
    unfold matrix_total in *. simpl. lia.
Qed.

Lemma Forall_nth_row (m : Np.ndarray2) r :
  Forall (Forall (fun x => 0 <= x)) m -> Forall (fun x => 0 <= x) (nth r m []).
Proof.
  intros H. revert r. induction H; intros [|r]; simpl; auto.
Qed.

Lemma zip_with_map_seq {A B C} (f : A -> B -> C) (g : nat -> A) (h : nat -> B) l :
  zip_with f (map g l) (map h l) = map (fun c => f (g c) (h c)) l.
Proof. induction l; simpl; congruence. Qed.

Lemma map_nth_seq {A B} (f : A -> B) (d : A) (l : list A) :
  map f l = map (fun i => f (nth i l d)) (seq 0 (length l)).
Proof.
  induction l as [|x l IH]; simpl; [done|].
  f_equal. rewrite <- seq_shift, map_map. exact IH.
Qed.

Lemma ncols_square n m :
  length m = n -> Forall (fun row => length row = n) m -> Np.ncols m = n.
Proof.
  intros Hn Hrows. destruct m as [|row m]; simpl in *; [done|].
  by inversion Hrows.
Qed.

Lemma div_by_zero_not_finite (x : F64.float64) :
  F64.is_finite (F64.div x (F64.of_int 0)) = false.
Proof. by destruct x. Qed.

Lemma precision_square n m :
  is_confusion_matrix n m ->
  calculate_class_precision m
  = Ok (map (fun c => fdiv (Np.entry m c c) (col_sum m c)) (seq 0 n)).
Proof.
  intros (Hn & Hrows & Hpos & Htot).
  unfold calculate_class_precision, Np.true_divide, Np.diagonal, Np.sum_axis0, Np.nrows.
  rewrite (ncols_square n m Hn Hrows), Hn, Nat.min_id.
  rewrite !length_map, Nat.eqb_refl, zip_with_map_seq.
  f_equal. apply map_ext_in. intros c _. unfold fdiv. do 2 f_equal.
  apply sum1_exact.
  - clear -Hpos. induction Hpos; simpl; constructor; auto using nth_nonneg.
  - pose proof (col_sum_le_total m c Hpos). unfold col_sum in *. lia.
Qed.

Lemma recall_square n m :
  is_confusion_matrix n m ->
  calculate_class_recall m
  = Ok (map (fun c => fdiv (Np.entry m c c) (row_sum m c)) (seq 0 n)).
Proof.
  intros (Hn & Hrows & Hpos & Htot).
  unfold calculate_class_recall, Np.true_divide, Np.diagonal, Np.sum_axis1, Np.nrows.
  rewrite (ncols_square n m Hn Hrows), Hn, Nat.min_id.
  rewrite (map_nth_seq Np.sum1 [] m), Hn.
  rewrite !length_map, Nat.eqb_refl, zip_with_map_seq.
  f_equal. apply map_ext_in. intros c _. unfold fdiv. do 2 f_equal.
  apply sum1_exact.
  - by apply Forall_nth_row.
  - pose proof (row_sum_le_total m c Hpos). unfold row_sum in *. lia.
Qed.

(** The binary64 quotient 5/7 is the double nearest to the rational 5/7:
    it is [m * 2^-53] with [|7 m - 5 * 2^53| <= 7/2]. *)
Lemma fdiv_5_7_nearest :
  fdiv 5 7 = S754_finite false 6433713753386423 (-53) /\
  2 * Z.abs (7 * 6433713753386423 - 5 * 2 ^ 53) <= 7.
Proof. split; [reflexivity | by vm_compute]. Qed.

(** C5. For an [n] by [n] confusion matrix, [calculate_class_precision]
    returns for each class [c] the diagonal entry at [c] divided by the
    column sum at [c], and [calculate_class_recall] the diagonal entry
    divided by the row sum at [c]; a class whose column (row) sum is zero
    gets a non-finite float and no exception is raised; on
    [[5,1],[2,4]] precision is [5/7, 4/5] and recall is [5/6, 4/6]. *)
Theorem calculate_class_precision_recall_spec (n : nat) (m : Np.ndarray2) :
  is_confusion_matrix n m ->
  calculate_class_precision m
    = Ok (map (fun c => fdiv (Np.entry m c c) (col_sum m c)) (seq 0 n)) /\
  calculate_class_recall m
    = Ok (map (fun c => fdiv (Np.entry m c c) (row_sum m c)) (seq 0 n)) /\
  (forall c, col_sum m c = 0 ->
     F64.is_finite (fdiv (Np.entry m c c) (col_sum m c)) = false) /\
  (forall c, row_sum m c = 0 ->
     F64.is_finite (fdiv (Np.entry m c c) (row_sum m c)) = false) /\
  calculate_class_precision [[5; 1]; [2; 4]] = Ok [fdiv 5 7; fdiv 4 5] /\
  calculate_class_recall [[5; 1]; [2; 4]] = Ok [fdiv 5 6; fdiv 4 6].
Proof.
  intros Hm. split; [by apply precision_square|].
  split; [by apply recall_square|].
  split; [intros c ->; apply div_by_zero_not_finite|].
  split; [intros c ->; apply div_by_zero_not_finite|].
  split; reflexivity.
Qed.

Lemma calculate_class_precision_recall_spec_witness :
  is_confusion_matrix 2 [[5; 1]; [2; 4]] /\
  calculate_class_precision [[5; 1]; [2; 4]]
    = Ok (map (fun c => fdiv (Np.entry [[5; 1]; [2; 4]] c c)
                          (col_sum [[5; 1]; [2; 4]] c)) (seq 0 2)).
Proof.
  assert (H : is_confusion_matrix 2 [[5; 1]; [2; 4]]).
  { split; [reflexivity|]. split; [repeat constructor|].
    split; [repeat constructor; lia|]. by vm_compute. }
  split; [exact H|].
  exact (proj1 (calculate_class_precision_recall_spec 2 [[5; 1]; [2; 4]] H)).
Defined.

End Metrics.

(** ** Strict loading of a parameter set *)

Section StrictLoad.
Context {R : Type} {SR : Scalar R} {BT : BackendTypes} {B : Backend R}.

Lemma load_from_state_dict_spec (net_sd new_params : StateDict R) :
  exists error_msgs,
    load_from_state_dict net_sd new_params true
    = (map (loaded_entry new_params) net_sd, missing_in net_sd new_params, error_msgs).
Proof.
  induction net_sd as [|[name param] rest [errs IH]]; simpl.
  - by exists [].
  - rewrite IH. unfold missing_in, loaded_entry, sd_mem. simpl.
    rewrite filter_cons. simpl.
    destruct (sd_get name new_params) as [input_param|] eqn:Hget.
    + destruct (decide (true = false)) as [|_]; [done|].
      destruct (length input_param =? length param)%nat; eauto.
    + destruct (decide (false = false)) as [_|]; [|done]. eauto.
Qed.

Lemma load_state_dict_key_mismatch (net_sd new_params : StateDict R) :
  key_mismatch net_sd new_params ->
  exists error_msgs,
    load_state_dict net_sd new_params true
    = (map (loaded_entry new_params) net_sd, Raise (RuntimeError_load_state_dict error_msgs))
    /\ (MissingKeys (missing_in net_sd new_params) ∈ error_msgs
        \/ UnexpectedKeys (unexpected_in net_sd new_params) ∈ error_msgs).
Proof.
  intros Hmis. unfold load_state_dict.
  destruct (load_from_state_dict_spec net_sd new_params) as [errs ->].
  fold (unexpected_in net_sd new_params).
  destruct (missing_in net_sd new_params) as [|k ks] eqn:Hm;
    destruct (unexpected_in net_sd new_params) as [|u us] eqn:Hu.
  - destruct Hmis; congruence.
  - eexists. split; [reflexivity|]. right. left.
  - eexists. split; [reflexivity|]. left. left.
  - eexists. split; [reflexivity|]. left. left.
Qed.

Lemma sd_get_loaded_absent (net_sd new_params : StateDict R) (name : string) :
  sd_mem name new_params = false ->
  sd_get name (map (loaded_entry new_params) net_sd) = sd_get name net_sd.
Proof.
  unfold sd_mem. intros Hname.
  induction net_sd as [|[k t] rest IH]; simpl; [done|].
  unfold loaded_entry at 1. simpl.
  destruct (String.eqb_spec k name) as [->|Hne].
  - destruct (sd_get name new_params); [done|]. simpl. by rewrite String.eqb_refl.
  - destruct (sd_get k new_params) as [inp|]; [destruct (_ =? _)%nat|]; simpl;
      destruct (String.eqb_spec k name); done.
Qed.

(** C1 (amended). When [new_params] misses a layer name of the network or
    has an unexpected one, [update_nn_parameters] raises the key-mismatch
    [RuntimeError], and by then every layer of the network that
    [new_params] names with the same shape holds the supplied tensor; the
    layers that [new_params] lacks, and nothing else of the client or of
    the world, keep what they held. *)
Theorem update_nn_parameters_key_mismatch (s : State R) (new_params : StateDict R) :
  key_mismatch (state_dict (net (self s))) new_params ->
  exists error_msgs s',
    update_nn_parameters new_params s = (s', Raise (RuntimeError_load_state_dict error_msgs))
    /\ (MissingKeys (missing_in (state_dict (net (self s))) new_params) ∈ error_msgs
        \/ UnexpectedKeys (unexpected_in (state_dict (net (self s))) new_params) ∈ error_msgs)
    /\ state_dict (net (self s'))
       = map (loaded_entry new_params) (state_dict (net (self s)))
    /\ (forall name, sd_mem name new_params = false ->
          sd_get name (state_dict (net (self s')))
          = sd_get name (state_dict (net (self s))))
    /\ world s' = world s
    /\ optimizer (self s') = optimizer (self s)
    /\ scheduler (self s') = scheduler (self s).
Proof.
  intros Hmis.
  destruct (load_state_dict_key_mismatch _ _ Hmis) as (errs & Hload & Hin).
  exists errs. unfold update_nn_parameters, deepcopy.
  cbv [mbind M_bind get_self]. rewrite Hload.
  eexists. split; [reflexivity|]. simpl.
  repeat split; try done.
  intros name Hname. by apply sd_get_loaded_absent.
Qed.

End StrictLoad.

Import Toy.

Lemma update_nn_parameters_key_mismatch_witness :
  exists error_msgs s',
    update_nn_parameters [("w", [q 7; q 8])]
      (Toy.state [("w", [q 1; q 2]); ("b", [q 3])] [])
    = (s', Raise (RuntimeError_load_state_dict error_msgs))
    /\ state_dict (net (self s')) = [("w", [q 7; q 8]); ("b", [q 3])].
Proof.
  destruct (update_nn_parameters_key_mismatch
              (Toy.state [("w", [q 1; q 2]); ("b", [q 3])] [])
              [("w", [q 7; q 8])])
    as (errs & s' & Hrun & _ & Hsd & _).
  - left. vm_compute. discriminate.
  - exists errs, s'. split; [exact Hrun|]. rewrite Hsd. reflexivity.
Defined.

(** C1 as stated fails: the network has layers [w] and [b], [new_params] has
    only [w]; the call raises, and [w] has been overwritten. *)
Lemma update_nn_parameters_not_atomic :
  let s := Toy.state [("w", [q 1; q 2]); ("b", [q 3])] [] in
  let new_params := [("w", [q 7; q 8])] in
  key_mismatch (state_dict (net (self s))) new_params /\
  exists e s',
    update_nn_parameters new_params s = (s', Raise e) /\
    state_dict (net (self s')) <> state_dict (net (self s)).
Proof.
  split.
  - left. vm_compute. discriminate.
  - eexists _, _. split; [reflexivity|]. vm_compute. discriminate.
Qed.

(** ** The parameter distance and the proximal term *)

Section Distance.
Context {R : Type} {SR : Scalar R} {BT : BackendTypes} {B : Backend R}.

Lemma dss_loop_same_shapes (params1 items : StateDict R) : forall dss,
  same_shapes params1 items = true ->
  dss_loop params1 items dss
  = Ok (fold_left radd
          (map (fun e => squared_distance (default [] (sd_get (fst e) params1)) (snd e))
               (shared params1 items))
          dss).
Proof.
  induction items as [|[name param2] rest IH]; intros dss Hsh; [done|].
  apply andb_prop in Hsh as [Hhd Htl]. fold (same_shapes params1 rest) in Htl.
  unfold shared in *. rewrite filter_cons.
  cbn [dss_loop fst snd] in *.
  destruct (sd_get name params1) as [param1|] eqn:Hget.
  - rewrite decide_True by (unfold sd_mem; by rewrite Hget).
    unfold tensor_sub, broadcast2. rewrite Hhd. cbn [map fold_left fst snd].
    rewrite Hget. cbn [default]. by rewrite IH.
  - rewrite decide_False by (unfold sd_mem; by rewrite Hget). by rewrite IH.
Qed.

Lemma dss_loop_only_raises_size (params1 items : StateDict R) : forall dss e,
  dss_loop params1 items dss = Raise e -> exists a b, e = RuntimeError_size a b.
Proof.
  induction items as [|[name param2] rest IH]; intros dss e; simpl; [done|].
  destruct (sd_get name params1) as [param1|]; [|by apply IH].
  unfold tensor_sub, broadcast2.
  destruct (length param1 =? length param2)%nat; [by apply IH|].
  destruct param1 as [|x [|x' param1]], param2 as [|y [|y' param2]];
    try (by apply IH); intros [= <-]; eauto.
Qed.

(** C6 (amended). [diff_squared_sum] raises [ValueError] exactly when its
    argument is neither a [torch.nn.Module] nor an [OrderedDict]; for an
    accepted argument whose tensors have the shapes of the client's tensors
    of the same names it returns the sum, over the names shared with the
    client's parameter set, of the squared differences, raises nothing and
    changes nothing. *)
Theorem diff_squared_sum_spec (s : State R) (model2 : PyObject R) :
  ((exists msg, snd (diff_squared_sum model2 s) = Raise (ValueError msg))
     <-> accepted model2 = false) /\
  (accepted model2 = true ->
   same_shapes (state_dict (net (self s))) (entries model2) = true ->
   diff_squared_sum model2 s
   = (s, Ok (shared_squared_distance (state_dict (net (self s))) (entries model2)))).
Proof.
  unfold diff_squared_sum, shared_squared_distance.
  cbv [mbind M_bind get_nn_parameters get_self mret M_ret raise].
  split; [split|].
  - intros [msg Hmsg]. destruct model2 as [items|items|items|]; simpl in *; try done.
    all: destruct (dss_loop _ items _) eqn:Hloop; simpl in Hmsg; try done.
    all: apply dss_loop_only_raises_size in Hloop as (a & b & ->); done.
  - destruct model2; simpl; try done; eauto.
  - intros Hacc Hsh. destruct model2 as [items|items|items|]; simpl in *; try done.
    all: by rewrite dss_loop_same_shapes.
Qed.

Lemma diff_squared_sum_snapshot (s : State R) (server_model : StateDict R) :
  same_shapes (state_dict (net (self s))) server_model = true ->
  diff_squared_sum (PyOrderedDict server_model) s
  = (s, Ok (shared_squared_distance (state_dict (net (self s))) server_model)).
Proof.
  intros Hsh. unfold diff_squared_sum, shared_squared_distance.
  cbv [mbind M_bind get_nn_parameters get_self mret M_ret raise].
  by rewrite dss_loop_same_shapes.
Qed.

Lemma sd_get_shapes (p p' : StateDict R) (name : string) :
  shapes p = shapes p' ->
  match sd_get name p, sd_get name p' with
  | Some t, Some t' => length t = length t'
  | None, None => True
  | _, _ => False
  end.
Proof.
  revert p'. induction p as [|[k t] p IH]; intros [|[k' t'] p'] Hsh; simpl in *; try done.
  injection Hsh as -> Hlen Hsh. destruct (String.eqb k' name); [done|]. by apply IH.
Qed.

Lemma same_shapes_refl (sd : StateDict R) : NoDup (keys sd) -> same_shapes sd sd = true.
Proof.
  unfold same_shapes. intros Hnd. apply forallb_forall. intros [name t] Hin. simpl.
  induction sd as [|[k t0] sd IH]; simpl in *; [done|].
  apply NoDup_cons in Hnd as [Hk Hnd].
  destruct Hin as [[= -> ->]|Hin].
  - by rewrite String.eqb_refl, Nat.eqb_refl.
  - destruct (String.eqb_spec k name) as [->|Hne]; [|by apply IH].
    exfalso. apply Hk. apply list_elem_of_In. apply in_map_iff. by exists (name, t).
Qed.

Lemma same_shapes_of_shapes (p server_model : StateDict R) :
  shapes p = shapes server_model -> NoDup (keys server_model) ->
  same_shapes p server_model = true.
Proof.
  intros Hsh Hnd. pose proof (same_shapes_refl server_model Hnd) as Hrefl.
  unfold same_shapes in *. rewrite forallb_forall in *. intros e He.
  specialize (Hrefl e He). pose proof (sd_get_shapes p server_model (fst e) Hsh) as Hget.
  destruct (sd_get (fst e) p), (sd_get (fst e) server_model); try done.
  apply Nat.eqb_eq in Hrefl. apply Nat.eqb_eq. lia.
Qed.

Lemma batch_loss_prox (s : State R) (type : string) (server_model : StateDict R)
    (primary : R) :
  type = "fed_prox" \/ type = "fed_greedy" ->
  same_shapes (state_dict (net (self s))) server_model = true ->
  batch_loss type server_model primary s
  = (s, Ok (radd primary
              (rmul (rdiv (mu (self s)) (of_int 2))
                 (shared_squared_distance (state_dict (net (self s))) server_model)))).
Proof.
  intros Htype Hsh. unfold batch_loss.
  rewrite bool_decide_eq_true_2 by (destruct Htype as [-> | ->]; set_solver).
  cbv [mbind M_bind get_mu get_self mret M_ret].
  by rewrite (diff_squared_sum_snapshot s server_model Hsh).
Qed.

Lemma batch_loss_other (s : State R) (type : string) (server_model : StateDict R)
    (primary : R) :
  type <> "fed_prox" -> type <> "fed_greedy" ->
  batch_loss type server_model primary s = (s, Ok primary).
Proof.
  intros H1 H2. unfold batch_loss.
  rewrite bool_decide_eq_false_2; [done|].
  intros Hin. apply list_elem_of_In in Hin. simpl in Hin. intuition congruence.
Qed.

(** C2. The loss that [train] backpropagates for a batch is the primary
    loss plus, for the objectives fed_prox and fed_greedy, [mu / 2] times the
    sum over the names of the round-start snapshot that the current
    parameter set has too of the squared elementwise differences (the
    current parameter set having the names and shapes of the snapshot it
    was copied from); for any other objective it is the primary loss.  For
    a network of one parameter [w], snapshot [w0] and [mu = 2] the added
    term is [(w - w0)^2]. *)
Theorem batch_loss_spec (s : State R) (type : string) (server_model : StateDict R)
    (primary : R) :
  ((type = "fed_prox" \/ type = "fed_greedy") ->
   shapes (state_dict (net (self s))) = shapes server_model ->
   NoDup (keys server_model) ->
   batch_loss type server_model primary s
   = (s, Ok (radd primary
               (rmul (rdiv (mu (self s)) (of_int 2))
                  (shared_squared_distance (state_dict (net (self s))) server_model))))) /\
  (type <> "fed_prox" -> type <> "fed_greedy" ->
   batch_loss type server_model primary s = (s, Ok primary)) /\
  (ScalarLaws ->
   (type = "fed_prox" \/ type = "fed_greedy") ->
   forall name w w0,
     state_dict (net (self s)) = [(name, [w])] ->
     server_model = [(name, [w0])] ->
     mu (self s) = of_int 2 ->
     batch_loss type server_model primary s
     = (s, Ok (radd primary (rmul (rsub w w0) (rsub w w0))))).
Proof.
  split; [|split].
  - intros Htype Hsh Hnd. apply batch_loss_prox; [done|]. by apply same_shapes_of_shapes.
  - apply batch_loss_other.
  - intros Hlaws Htype name w w0 Hsd -> Hmu.
    rewrite batch_loss_prox; [|done|].
    + rewrite Hsd, Hmu. unfold shared_squared_distance, shared.
      rewrite filter_cons, filter_nil.
      rewrite decide_True by (unfold sd_mem; simpl; by rewrite String.eqb_refl).
      simpl. rewrite String.eqb_refl. simpl.
      unfold squared_distance, tensor_sum. simpl.
      by rewrite !radd_0_square, rdiv_2_2, rmul_1_l.
    + rewrite Hsd. unfold same_shapes. simpl. by rewrite String.eqb_refl.
Qed.

End Distance.

#[export] Instance Qc_ScalarLaws : ScalarLaws (R := Qc).
Proof.
  split; simpl.
  - intros d. apply Qcplus_0_l.
  - intros x. apply Qcmult_1_l.
  - apply Qc_is_canon. reflexivity.
Qed.

Lemma batch_loss_spec_witness :
  batch_loss "fed_prox" [("w", [q 1])] (q 5) (Toy.state [("w", [q 4])] [])
  = (Toy.state [("w", [q 4])] [],
     Ok (radd (q 5) (rmul (rsub (q 4) (q 1)) (rsub (q 4) (q 1))))).
Proof.
  apply (proj2 (proj2 (batch_loss_spec (Toy.state [("w", [q 4])] []) "fed_prox"
                         [("w", [q 1])] (q 5)))
           Qc_ScalarLaws (or_introl eq_refl) "w" (q 4) (q 1)); reflexivity.
Defined.

Lemma diff_squared_sum_spec_witness :
  diff_squared_sum (PyOrderedDict [("w", [q 1; q 2]); ("c", [q 0])])
    (Toy.state [("w", [q 4; q 6]); ("b", [q 3])] [])
  = (Toy.state [("w", [q 4; q 6]); ("b", [q 3])] [],
     Ok (shared_squared_distance [("w", [q 4; q 6]); ("b", [q 3])]
           [("w", [q 1; q 2]); ("c", [q 0])])).
Proof.
  apply (proj2 (diff_squared_sum_spec (Toy.state [("w", [q 4; q 6]); ("b", [q 3])] [])
                  (PyOrderedDict [("w", [q 1; q 2]); ("c", [q 0])]))); reflexivity.
Defined.

(** C6 as stated fails: an [OrderedDict] is accepted, but a tensor of three
    elements under the name of a tensor of two makes the subtraction raise
    [RuntimeError]. *)
Lemma diff_squared_sum_accepted_raises :
  let s := Toy.state [("w", [q 1; q 2])] [] in
  let model2 := PyOrderedDict [("w", [q 1; q 2; q 3])] in
  accepted model2 = true /\
  snd (diff_squared_sum model2 s) = Raise (RuntimeError_size 2 3).
Proof. split; reflexivity. Qed.

(** ** Checkpoints *)

Ltac run :=
  cbv [mbind M_bind mret M_ret get_self get_world set_self set_world emit set_fs
       set_proc set_net set_optimizer set_scheduler raise get_nn_parameters get_mu lift];
  cbn [self world fs proc trace args client_idx net optimizer scheduler mu
       train_data_loader test_data_loader state_dict training fs_dirs fs_files fst snd
       negb].

Section SeedingBlock.
Context {R : Type} {SR : Scalar R} {BT : BackendTypes} {B : Backend R}.

Lemma seed_accepted_or_rejected (seed : option Z) :
  seed_accepted seed \/ exists z, seed = Some z /\ ~ 0 <= z <= 2 ^ 32 - 1.
Proof.
  destruct seed as [z|]; [|by left].
  destruct (decide (0 <= z <= 2 ^ 32 - 1)); [by left|right; by exists z].
Qed.

Lemma seed_everything_run (seed : Z) (s : State R) :
  0 <= seed <= 2 ^ 32 - 1 ->
  seed_everything seed s = (seeded (Some seed) s, Ok tt).
Proof.
  intros Hseed. unfold seed_everything, seeded, seeded_proc, torch_accepts_seed,
    np_accepts_seed.
  replace (- 2 ^ 63 <=? seed) with true by (symmetry; apply Z.leb_le; lia).
  replace (seed <=? 2 ^ 64 - 1) with true by (symmetry; apply Z.leb_le; lia).
  replace (0 <=? seed) with true by (symmetry; apply Z.leb_le; lia).
  replace (seed <=? 2 ^ 32 - 1) with true by (symmetry; apply Z.leb_le; lia).
  cbn [andb]. by run.
Qed.

(** A seed that numpy does not take: the block raises, [RuntimeError] from
    torch when the seed is outside torch's range too, and [ValueError] from
    numpy otherwise, after torch's generator has been seeded. *)
Lemma seed_everything_rejected (seed : Z) (s : State R) :
  ~ 0 <= seed <= 2 ^ 32 - 1 ->
  seed_everything seed s
  = if torch_accepts_seed seed then
      ({| self := self s;
          world := {| fs := fs (world s);
                      proc := {| torch_rng := torch_manual_seed seed;
                                 np_rng := np_rng (proc (world s));
                                 py_rng := py_rng (proc (world s));
                                 cudnn_deterministic := cudnn_deterministic (proc (world s));
                                 cudnn_benchmark := cudnn_benchmark (proc (world s)) |};
                      trace := trace (world s) |} |},
       Raise (ValueError "Seed must be between 0 and 2**32 - 1"))
    else (s, Raise (RuntimeError "Overflow when unpacking long")).
Proof.
  intros Hseed. unfold seed_everything. run.
  destruct (torch_accepts_seed seed); run; [|done].
  assert (Hnp : np_accepts_seed seed = false).
  { unfold np_accepts_seed. apply andb_false_iff.
    destruct (decide (0 <= seed)); [right|left]; apply Z.leb_gt; lia. }
  by rewrite Hnp.
Qed.

(** With a seed that the block takes, [train] is the loop over the epochs
    from the seeded state, and the end checkpoint. *)
Lemma train_eq (s : State R) (round epochs : Z) (type : string) (seed : option Z) :
  seed_accepted seed ->
  train round epochs type seed s
  = let '(s1, r1) :=
      train_epochs round epochs type (state_dict (net (self s))) (range epochs) None
        (seeded seed s) in
    match r1 with
    | Ok running_loss =>
        let '(s2, r2) := save_model round (get_cr_save_end_suffix (args (self s1))) s1 in
        (s2, match r2 with
             | Ok _ => match running_loss with
                       | Some running_loss => Ok running_loss
                       | None => Raise (UnboundLocalError "running_loss")
                       end
             | Raise e => Raise e
             end)
    | Raise e => (s1, Raise e)
    end.
Proof.
  intros Hseed. unfold train, deepcopy. destruct seed as [seed|]; run.
  - rewrite (seed_everything_run seed s Hseed). run. cbn [seeded self].
    destruct (train_epochs _ _ _ _ _ _ _) as [s1 [a|e]]; [|done].
    destruct (save_model _ _ _) as [s2 [u|e]]; [|done]. by destruct a.
  - destruct s as [c [f p tr]]. unfold seeded, seeded_proc. run.
    destruct (train_epochs _ _ _ _ _ _ _) as [s1 [a|e]]; [|done].
    destruct (save_model _ _ _) as [s2 [u|e]]; [|done]. by destruct a.
Qed.

(** With a seed that numpy does not take, [train] ends in the seeding
    block: the client, the files and the trace are as they were. *)
Lemma train_rejected (s : State R) (round epochs : Z) (type : string) (seed : Z) :
  ~ 0 <= seed <= 2 ^ 32 - 1 ->
  train round epochs type (Some seed) s
  = ({| self := self s;
        world :=
          {| fs := fs (world s);
             proc := if torch_accepts_seed seed
                     then {| torch_rng := torch_manual_seed seed;
                             np_rng := np_rng (proc (world s));
                             py_rng := py_rng (proc (world s));
                             cudnn_deterministic := cudnn_deterministic (proc (world s));
                             cudnn_benchmark := cudnn_benchmark (proc (world s)) |}
                     else proc (world s);
             trace := trace (world s) |} |},
     Raise (if torch_accepts_seed seed
            then ValueError "Seed must be between 0 and 2**32 - 1"
            else RuntimeError "Overflow when unpacking long")).
Proof.
  intros Hseed. destruct s as [c [f p tr]]. unfold train. run.
  rewrite (seed_everything_rejected seed _ Hseed).
  by destruct (torch_accepts_seed seed).
Qed.

End SeedingBlock.

Section Checkpoints.
Context {R : Type} {SR : Scalar R} {BT : BackendTypes} {B : Backend R}.

Lemma save_model_run (s : State R) (epoch : Z) (suffix : string) :
  os_permits_save s epoch suffix ->
  save_model epoch suffix s
  = ({| self := self s;
        world :=
          {| fs := {| fs_dirs :=
                        fs_dirs (ensure_dir (fs (world s))
                                   (get_save_model_folder_path (args (self s))));
                      fs_files :=
                        <[full_save_path (self s) epoch suffix
                          := PyOrderedDict (state_dict (net (self s)))]>
                          (fs_files (fs (world s))) |};
             proc := proc (world s);
             trace := trace (world s) ++ save_model_events s epoch suffix |} |},
     Ok tt).
Proof.
  intros [Hmk Hwr].
  unfold save_model, save_model_events, os_mkdir, torch_save, ensure_dir, full_save_path in *.
  run. destruct (os_path_exists (fs (world s)) _) eqn:Hex; run.
  - rewrite Hwr. run. by rewrite <- !app_assoc.
  - rewrite Hmk by done. run. rewrite Hex. run. rewrite Hwr. run.
    by rewrite <- !app_assoc.
Qed.

Lemma save_model_events_saves (s : State R) (epoch : Z) (suffix : string) :
  torch_saves (save_model_events s epoch suffix) = [full_save_path (self s) epoch suffix]
  /\ optimizer_steps (save_model_events s epoch suffix) = [].
Proof.
  unfold optimizer_steps, torch_saves, save_model_events.
  by destruct (os_path_exists _ _).
Qed.

Lemma full_save_path_plain (c : Client R) (epoch : Z) (suffix : string) :
  plain_dir (get_save_model_folder_path (args c)) ->
  full_save_path c epoch suffix
  = checkpoint_path (get_save_model_folder_path (args c)) (client_idx c) epoch suffix.
Proof.
  intros [Hne Hsep]. unfold full_save_path, checkpoint_path, os_path_join. simpl.
  apply String.eqb_neq in Hne. by rewrite Hne, Hsep.
Qed.

Lemma ensure_dir_exists (f : FS R) (dir path : string) (obj : PyObject R) :
  os_path_exists {| fs_dirs := fs_dirs (ensure_dir f dir);
                    fs_files := <[path := obj]> (fs_files f) |} dir = true.
Proof.
  unfold ensure_dir. destruct (os_path_exists f dir) eqn:Hex; unfold os_path_exists in *.
  - apply orb_true_iff in Hex as [Hd|Hf]; apply orb_true_iff; [by left|right].
    apply bool_decide_eq_true. apply bool_decide_eq_true in Hf. simpl.
    destruct (decide (path = dir)) as [->|Hne].
    + rewrite lookup_insert_eq. eauto.
    + by rewrite lookup_insert_ne.
  - simpl. apply orb_true_iff. left. apply bool_decide_eq_true. set_solver.
Qed.

Lemma list_ascii_of_string_app (a b : string) :
  list_ascii_of_string (a +:+ b) = (list_ascii_of_string a ++ list_ascii_of_string b)%list.
Proof. induction a as [|c a IH]; [done|]. exact (f_equal (cons c) IH). Qed.

Lemma string_app_inv_tail (a b t : string) : a +:+ t = b +:+ t -> a = b.
Proof.
  intros H. apply (f_equal list_ascii_of_string) in H.
  rewrite !list_ascii_of_string_app in H. apply app_inv_tail in H.
  apply (f_equal string_of_list_ascii) in H.
  by rewrite !string_of_list_ascii_of_string in H.
Qed.

Lemma string_app_assoc (x y z : string) : (x +:+ y) +:+ z = x +:+ (y +:+ z).
Proof. induction x as [|ch x IH]; [done|]. exact (f_equal (String ch) IH). Qed.

Lemma full_save_path_split (c : Client R) (epoch : Z) :
  exists pre, forall suffix,
    full_save_path c epoch suffix = pre +:+ (suffix +:+ ".model").
Proof.
  unfold full_save_path, os_path_join.
  assert (Hsw : forall x, starts_with_sep ("model_" +:+ x) = false) by done.
  destruct (String.eqb _ _ || ends_with_sep _).
  - exists (get_save_model_folder_path (args c) +:+ "model_" +:+ pretty (client_idx c)
              +:+ "_" +:+ pretty epoch +:+ "_").
    intros suffix. rewrite Hsw. by rewrite !string_app_assoc.
  - exists (get_save_model_folder_path (args c) +:+ "/" +:+ "model_"
              +:+ pretty (client_idx c) +:+ "_" +:+ pretty epoch +:+ "_").
    intros suffix. rewrite Hsw. by rewrite !string_app_assoc.
Qed.

(** Two checkpoints of one client and round are the same file only when
    their suffixes are the same. *)
Lemma full_save_path_inj (c : Client R) (epoch : Z) (suffix1 suffix2 : string) :
  full_save_path c epoch suffix1 = full_save_path c epoch suffix2 -> suffix1 = suffix2.
Proof.
  destruct (full_save_path_split c epoch) as [pre Hpre]. rewrite !Hpre.
  intros H. apply String.app_inj in H. by apply string_app_inv_tail in H.
Qed.

(** C8. [save_model] writes the checkpoint of client [i] for round [r]
    and suffix [s] to [<save_model_dir>/model_i_r_s.model] and to no other
    file, creates the save directory when it is absent, and the file holds
    exactly the network's parameter set (no optimizer or scheduler
    state). *)
Theorem save_model_spec (s : State R) (round : Z) (suffix : string) :
  plain_dir (get_save_model_folder_path (args (self s))) ->
  os_permits_save s round suffix ->
  exists s',
    save_model round suffix s = (s', Ok tt) /\
    fs_files (fs (world s'))
    = <[checkpoint_path (get_save_model_folder_path (args (self s)))
          (client_idx (self s)) round suffix
        := PyOrderedDict (state_dict (net (self s)))]> (fs_files (fs (world s))) /\
    torch_saves (trace (world s'))
    = (torch_saves (trace (world s))
         ++ [checkpoint_path (get_save_model_folder_path (args (self s)))
               (client_idx (self s)) round suffix])%list /\
    os_path_exists (fs (world s')) (get_save_model_folder_path (args (self s))) = true /\
    (os_path_exists (fs (world s)) (get_save_model_folder_path (args (self s))) = false ->
     fs_dirs (fs (world s'))
     = {[get_save_model_folder_path (args (self s))]} ∪ fs_dirs (fs (world s))) /\
    self s' = self s.
Proof.
  intros Hdir Hos. eexists. split; [by apply save_model_run|].
  cbn [fst self world fs fs_files fs_dirs trace].
  rewrite <- (full_save_path_plain _ _ _ Hdir).
  split; [done|]. split; [|split; [apply ensure_dir_exists|split; [|done]]].
  - unfold torch_saves. rewrite omap_app. f_equal. apply save_model_events_saves.
  - intros Hex. unfold ensure_dir. by rewrite Hex.
Qed.

(** C10. With [epochs = 0], and a seed that the seeding block takes,
    [train] takes no gradient step and saves no start checkpoint; it saves
    the end checkpoint and then raises [UnboundLocalError] for
    [running_loss]. *)
Theorem train_zero_epochs (s : State R) (round : Z) (type : string) (seed : option Z) :
  seed_accepted seed ->
  os_permits_save s round (get_cr_save_end_suffix (args (self s))) ->
  exists s' events,
    train round 0 type seed s = (s', Raise (UnboundLocalError "running_loss")) /\
    trace (world s') = (trace (world s) ++ events)%list /\
    optimizer_steps events = [] /\
    torch_saves events
    = [full_save_path (self s) round (get_cr_save_end_suffix (args (self s)))] /\
    (get_cr_save_start_suffix (args (self s)) <> get_cr_save_end_suffix (args (self s)) ->
     full_save_path (self s) round (get_cr_save_start_suffix (args (self s)))
       ∉ torch_saves events) /\
    fs_files (fs (world s'))
    = <[full_save_path (self s) round (get_cr_save_end_suffix (args (self s)))
        := PyOrderedDict (state_dict (net (self s)))]> (fs_files (fs (world s))).
Proof.
  intros Hseed Hos. unfold train. change (range 0) with (@nil Z). cbn [train_epochs].
  destruct (save_model_events_saves s round (get_cr_save_end_suffix (args (self s))))
    as [Hsaves Hsteps].
  assert (Hstart :
            get_cr_save_start_suffix (args (self s)) <> get_cr_save_end_suffix (args (self s)) ->
            full_save_path (self s) round (get_cr_save_start_suffix (args (self s)))
              ∉ torch_saves (save_model_events s round
                               (get_cr_save_end_suffix (args (self s))))).
  { intros Hne Hin. rewrite Hsaves in Hin. apply list_elem_of_singleton in Hin.
    by apply full_save_path_inj in Hin. }
  destruct seed as [seed|]; run.
  - rewrite (seed_everything_run seed s Hseed). run.
    rewrite save_model_run by exact Hos.
    eexists _, _. split; [reflexivity|].
    by cbn [seeded fst self world fs fs_files fs_dirs trace].
  - rewrite save_model_run by exact Hos.
    eexists _, _. split; [reflexivity|]. by cbn [fst self world fs fs_files fs_dirs trace].
Qed.

End Checkpoints.

Lemma save_model_spec_witness :
  exists s',
    save_model 3 "start" (Toy.state [("w", [q 1])] []) = (s', Ok tt) /\
    fs_files (fs (world s')) !! "models/model_7_3_start.model"
    = Some (PyOrderedDict [("w", [q 1])]).
Proof.
  destruct (save_model_spec (Toy.state [("w", [q 1])] []) 3 "start")
    as (s' & Hrun & Hfiles & _).
  - split; [discriminate | reflexivity].
  - split; reflexivity.
  - exists s'. split; [exact Hrun|]. rewrite Hfiles. apply lookup_insert_eq.
Defined.

Lemma train_zero_epochs_witness :
  exists s',
    train 3 0 "fed_avg" (Some 40) (Toy.state [("w", [q 1])] [[(1, 1)]])
    = (s', Raise (UnboundLocalError "running_loss")).
Proof.
  destruct (train_zero_epochs (Toy.state [("w", [q 1])] [[(1, 1)]]) 3 "fed_avg" (Some 40))
    as (s' & events & Hrun & _).
  - simpl. lia.
  - split; reflexivity.
  - by exists s'.
Defined.

(** ** Loading the default weights *)

Section Loading.
Context {R : Type} {SR : Scalar R} {BT : BackendTypes} {B : Backend R}.

Lemma load_weights_run (model : Net R) (path : string) (ml : option Device) (s : State R) :
  load_weights model path ml s
  = ({| self := self s;
        world := {| fs := fs (world s); proc := proc (world s);
                    trace := trace (world s) ++ [EvTorchLoad path ml] |} |},
     Ok (attempt model (fs (world s)) path ml)).
Proof.
  unfold load_weights, attempt. run. by destruct (torch_load _ _ _).
Qed.

(** C7. [load_model_from_file]: when the file does not exist, a warning
    is logged and the freshly constructed network is returned; when it
    exists and the first load fails, the load is retried exactly once,
    mapped to the CPU, and if the retry fails its error is raised to the
    caller; when the first load succeeds there is no retry. *)
Theorem load_model_from_file_spec (s : State R) (path : string) :
  let fresh := {| state_dict := fst (model_class (proc (world s))); training := true |} in
  let first := attempt fresh (fs (world s)) path None in
  let retry := attempt (fst first) (fs (world s)) path (Some CPU) in
  (os_path_exists (fs (world s)) path = false ->
   exists s',
     load_model_from_file path s = (s', Ok fresh) /\
     trace (world s')
     = (trace (world s) ++ [LogWarning ("Could not find model: " +:+ path)])%list) /\
  (os_path_exists (fs (world s)) path = true -> raises (snd first) = true ->
   exists s',
     load_model_from_file path s
     = (s', match snd retry with Ok _ => Ok (fst retry) | Raise e => Raise e end) /\
     trace (world s')
     = (trace (world s)
         ++ [EvTorchLoad path None;
             LogWarning
               "Couldn't load model. Attempting to map CUDA tensors to CPU to solve error.";
             EvTorchLoad path (Some CPU)])%list) /\
  (os_path_exists (fs (world s)) path = true -> raises (snd first) = false ->
   exists s',
     load_model_from_file path s = (s', Ok (fst first)) /\
     trace (world s') = (trace (world s) ++ [EvTorchLoad path None])%list).
Proof.
  intros fresh first retry. subst retry first fresh.
  unfold load_model_from_file. run.
  destruct (model_class (proc (world s))) as [weights p] eqn:Hmc.
  cbn [fst]. run.
  split; [|split].
  - intros ->. run. eauto.
  - intros -> Hfail. rewrite load_weights_run. run.
    destruct (attempt _ _ path None) as [model1 r1] eqn:Hfirst. cbn [fst snd] in *.
    destruct r1 as [|e1]; [done|]. run.
    rewrite load_weights_run. run.
    destruct (attempt model1 _ path (Some CPU)) as [model2 r2] eqn:Hretry. cbn [fst snd].
    destruct r2; run; (eexists; split; [reflexivity|]); cbn [world trace];
      by rewrite <- !app_assoc.
  - intros -> Hok. rewrite load_weights_run. run.
    destruct (attempt _ _ path None) as [model1 r1] eqn:Hfirst. cbn [fst snd] in *.
    destruct r1 as [|e1]; [|done]. run. eauto.
Qed.

End Loading.

Lemma load_model_from_file_spec_witness :
  exists s',
    load_model_from_file "default_models/Net.model" (Toy.state [] [])
    = (s', Ok {| state_dict := [("w", [q 0])]; training := true |}).
Proof.
  destruct (proj1 (load_model_from_file_spec (Toy.state [] []) "default_models/Net.model"))
    as (s' & Hrun & _).
  - reflexivity.
  - by exists s'.
Defined.

(** ** Evaluation on an empty test set *)

Section Evaluation.
Context {R : Type} {SR : Scalar R} {BT : BackendTypes} {B : Backend R}.

Lemma test_batches_total (batches : list Batch) : forall (acc : TestAcc) (s : State R),
  exists s' acc',
    test_batches batches acc s = (s', Ok acc') /\
    total acc' = total acc + Z.of_nat (sample_count batches).
Proof.
  induction batches as [|b batches IH]; intros acc s; simpl.
  - exists s, acc. split; [done|]. unfold sample_count. simpl. lia.
  - run. destruct (forward_loss _ _ _ _) as [l p]. run.
    edestruct IH as (s' & acc' & -> & Htot). exists s', acc'. split; [done|].
    rewrite Htot. cbn [total]. unfold sample_count. simpl. lia.
Qed.

(** C9. When the test data source yields no sample at all, [test] raises
    [ZeroDivisionError] at [100 * correct / total] and returns nothing. *)
Theorem test_zero_samples (s : State R) (log : bool) :
  sample_count (fst (iterate (test_data_loader (self s)) (proc (world s)))) = O ->
  snd (test log s) = Raise ZeroDivisionError.
Proof.
  intros Hzero. unfold test. run.
  destruct (iterate _ _) as [batches p]. cbn [fst] in Hzero. run.
  edestruct (test_batches_total batches) as (s' & acc' & -> & Htot).
  cbn [total] in Htot. rewrite Hzero in Htot. unfold int_truediv.
  replace (total acc') with 0 by lia. by simpl.
Qed.

End Evaluation.

Lemma test_zero_samples_witness :
  snd (test false (Toy.state [("w", [q 1])] [])) = Raise ZeroDivisionError.
Proof. apply test_zero_samples. reflexivity. Defined.

(** ** Runs of [train] that end normally

    When an optimizer step keeps names and shapes, the logging interval is
    not zero and the operating system refuses nothing, every batch finds the
    current parameter set with the names and shapes of the snapshot (so the
    proximal term never raises), [train] ends without an exception for
    [epochs >= 1], and it writes the start checkpoint once per epoch. *)

Section Runs.
Context {R : Type} {SR : Scalar R} {BT : BackendTypes} {B : Backend R}.
Hypothesis Hstep : shape_preserving.
Hypothesis Hos : os_never_refuses.

Lemma batch_loss_total (s : State R) (type : string) (server_model : StateDict R)
    (primary : R) :
  shapes (state_dict (net (self s))) = shapes server_model ->
  NoDup (keys server_model) ->
  exists loss, batch_loss type server_model primary s = (s, Ok loss).
Proof.
  intros Hsh Hnd.
  destruct (decide (type = "fed_prox")) as [Hp|Hp];
    [|destruct (decide (type = "fed_greedy")) as [Hg|Hg]].
  - eexists. apply batch_loss_prox; [by left|]. by apply same_shapes_of_shapes.
  - eexists. apply batch_loss_prox; [by right|]. by apply same_shapes_of_shapes.
  - eexists. by apply batch_loss_other.
Qed.

Lemma train_batches_run (round epoch epochs : Z) (type : string)
    (server_model : StateDict R) (batches : list (Z * Batch)) :
  NoDup (keys server_model) ->
  forall (running_loss : R) (s : State R),
    shapes (state_dict (net (self s))) = shapes server_model ->
    get_log_interval (args (self s)) <> 0 ->
    exists s' running_loss' events,
      train_batches round epoch epochs type server_model batches running_loss s
      = (s', Ok running_loss') /\
      shapes (state_dict (net (self s'))) = shapes server_model /\
      args (self s') = args (self s) /\
      client_idx (self s') = client_idx (self s) /\
      fs (world s') = fs (world s) /\
      trace (world s') = (trace (world s) ++ events)%list /\
      torch_saves events = [] /\
      length (optimizer_steps events) = length batches.
Proof.
  intros Hnd. induction batches as [|[i batch] rest IH]; intros running_loss s Hsh Hli.
  - exists s, running_loss, []. cbn [train_batches]. run.
    by rewrite app_nil_r.
  - cbn [train_batches]. run.
    destruct (forward_loss _ _ batch _) as [primary p] eqn:Hfw. run.
    edestruct (batch_loss_total
                 {| self := self s;
                    world := {| fs := fs (world s); proc := p; trace := trace (world s) |} |}
                 type server_model primary) as [loss Hloss]; [exact Hsh|exact Hnd|].
    rewrite Hloss. run.
    pose proof (Hstep (optimizer (self s)) (state_dict (net (self s))) batch loss p) as Hsh'.
    destruct (backward_step _ _ batch loss p) as [[sd' opt'] p'] eqn:Hbw.
    cbn [fst] in Hsh'. run.
    apply Z.eqb_neq in Hli. rewrite Hli.
    destruct ((i mod get_log_interval (args (self s)) =? 0) && (epoch =? epochs - 1)); run.
    all: match goal with
         | |- context [train_batches _ _ _ _ _ _ ?rl ?s1] =>
             assert (Hp1 : shapes (state_dict (net (self s1))) = shapes server_model)
               by (cbn [self net state_dict]; by rewrite Hsh');
             assert (Hp2 : get_log_interval (args (self s1)) <> 0)
               by (cbn [self args]; by apply Z.eqb_neq);
             destruct (IH rl s1 Hp1 Hp2)
               as (s' & rl' & evs & Hrun & Hsh2 & Hargs & Hidx & Hfs & Htr & Hsv & Hst);
             rewrite Hrun; clear Hrun Hp1 Hp2
         end.
    all: cbn [self world args client_idx fs trace] in *.
    all: do 3 eexists; split; [reflexivity|].
    all: do 4 (split; [done|]).
    all: split; [rewrite Htr, <- !app_assoc; reflexivity|].
    all: unfold torch_saves, optimizer_steps in *; rewrite !omap_app; simpl.
    all: rewrite Hsv; split; [done|]; by rewrite Hst.
Qed.

Lemma full_save_path_ext (c1 c2 : Client R) (epoch : Z) (suffix : string) :
  args c1 = args c2 -> client_idx c1 = client_idx c2 ->
  full_save_path c1 epoch suffix = full_save_path c2 epoch suffix.
Proof. unfold full_save_path. by intros -> ->. Qed.

Lemma torch_saves_app (a b : list (Event R)) :
  torch_saves (a ++ b) = (torch_saves a ++ torch_saves b)%list.
Proof. apply omap_app. Qed.

Lemma os_permits_every_save (s : State R) (epoch : Z) (suffix : string) :
  os_permits_save s epoch suffix.
Proof. split; intros; apply Hos. Qed.

Lemma train_epochs_run (round epochs : Z) (type : string)
    (server_model : StateDict R) (todo : list Z) :
  NoDup (keys server_model) ->
  forall (running_loss : option R) (s : State R),
    shapes (state_dict (net (self s))) = shapes server_model ->
    get_log_interval (args (self s)) <> 0 ->
    exists s' running_loss' events,
      train_epochs round epochs type server_model todo running_loss s
      = (s', Ok running_loss') /\
      (todo = [] -> running_loss' = running_loss) /\
      (todo <> [] -> is_Some running_loss') /\
      shapes (state_dict (net (self s'))) = shapes server_model /\
      args (self s') = args (self s) /\
      client_idx (self s') = client_idx (self s) /\
      trace (world s') = (trace (world s) ++ events)%list /\
      torch_saves events
      = repeat (full_save_path (self s) round (get_cr_save_start_suffix (args (self s))))
          (length todo).
Proof.
  intros Hnd. induction todo as [|epoch rest IH]; intros running_loss s Hsh Hli.
  - exists s, running_loss, []. cbn [train_epochs]. run.
    rewrite app_nil_r. by repeat split.
  - cbn [train_epochs]. run.
    rewrite save_model_run by apply os_permits_every_save. run.
    destruct (iterate _ _) as [batches p] eqn:Hit. run.
    match goal with
    | |- context [train_batches _ _ _ _ _ _ ?rl ?s1] =>
        destruct (train_batches_run round epoch epochs type server_model
                    (enumerate batches) Hnd rl s1 Hsh Hli)
          as (s1' & rl1 & evs1 & Hrun & Hsh1 & Hargs1 & Hidx1 & Hfs1 & Htr1 & Hsv1 & _);
        rewrite Hrun; clear Hrun
    end.
    cbn [self world args client_idx fs trace net state_dict] in *. run.
    destruct (scheduler_step _ _) as [sched' opt'] eqn:Hsched. run.
    match goal with
    | |- context [train_epochs _ _ _ _ _ ?rl ?s2] =>
        assert (Hp1 : shapes (state_dict (net (self s2))) = shapes server_model)
          by (by cbn [self net state_dict]);
        assert (Hp2 : get_log_interval (args (self s2)) <> 0)
          by (cbn [self args]; by rewrite Hargs1);
        destruct (IH rl s2 Hp1 Hp2)
          as (s' & rl' & evs & Hrun & Hnil & Hcons & Hsh2 & Hargs & Hidx & Htr & Hsv);
        rewrite Hrun; clear Hrun Hp1 Hp2
    end.
    cbn [self world args client_idx fs trace net state_dict] in *.
    do 3 eexists. split; [reflexivity|].
    split; [done|].
    split; [intros _; destruct rest; [rewrite Hnil by done; eauto | by apply Hcons]|].
    split; [done|]. split; [congruence|]. split; [congruence|].
    split; [rewrite Htr, Htr1, <- !app_assoc; reflexivity|].
    rewrite !torch_saves_app, (proj1 (save_model_events_saves _ _ _)), Hsv1, Hsv.
    cbn [length repeat app]. unfold torch_saves at 1. cbn.
    match goal with
    | |- context [repeat (full_save_path ?c _ _)] =>
        rewrite (full_save_path_ext c (self s) round _ Hargs1 Hidx1)
    end.
    rewrite Hargs1.
    match goal with
    | |- full_save_path ?c _ _ :: _ = _ =>
        by rewrite (full_save_path_ext c (self s) round _ eq_refl eq_refl)
    end.
Qed.

Lemma length_range (n : Z) : length (range n) = Z.to_nat n.
Proof. unfold range. by rewrite length_map, length_seq. Qed.

(** The checkpoints that a round writes: the start checkpoint once for
    each epoch, then the end checkpoint; and for [epochs >= 1] the call
    returns. *)
Lemma train_run (s : State R) (round epochs : Z) (type : string) (seed : option Z) :
  seed_accepted seed ->
  NoDup (keys (state_dict (net (self s)))) ->
  get_log_interval (args (self s)) <> 0 ->
  exists s' r events,
    train round epochs type seed s = (s', r) /\
    (0 < epochs -> exists running_loss, r = Ok running_loss) /\
    trace (world s') = (trace (world s) ++ events)%list /\
    torch_saves events
    = (repeat (full_save_path (self s) round (get_cr_save_start_suffix (args (self s))))
         (Z.to_nat epochs)
       ++ [full_save_path (self s) round (get_cr_save_end_suffix (args (self s)))])%list.
Proof.
  intros Hseed Hnd Hli. rewrite train_eq by done.
  destruct (train_epochs_run round epochs type (state_dict (net (self s)))
              (range epochs) Hnd None (seeded seed s) eq_refl Hli)
    as (s1 & rl & evs & -> & _ & Hsome & _ & Hargs & Hidx & Htr & Hsv).
  rewrite save_model_run by apply os_permits_every_save.
  cbn [seeded self world trace] in *.
  eexists. exists (match rl with
                   | Some running_loss => Ok running_loss
                   | None => Raise (UnboundLocalError "running_loss")
                   end).
  exists (evs ++ save_model_events s1 round (get_cr_save_end_suffix (args (self s1))))%list.
  split; [reflexivity|].
  split.
  { intros Hpos. destruct Hsome as [v ->]; [|by eexists].
    intros Hnil. apply (f_equal length) in Hnil. rewrite length_range in Hnil.
    simpl in Hnil. lia. }
  cbn [world trace].
  split; [by rewrite Htr, <- app_assoc|].
  rewrite torch_saves_app, Hsv, (proj1 (save_model_events_saves _ _ _)), length_range.
  rewrite Hargs. by rewrite (full_save_path_ext (self s1) (self s) round _ Hargs Hidx).
Qed.

End Runs.

Lemma toy_shape_preserving : shape_preserving (R := Qc).
Proof.
  intros opt sd batch loss p. simpl. unfold shapes. rewrite map_map. simpl.
  apply map_ext. intros [k t]. simpl. by rewrite length_map.
Qed.

Lemma toy_os_never_refuses : os_never_refuses (R := Qc).
Proof. by intros f path. Qed.

(** ** What a round reads and writes *)

Section Frames.
Context {R : Type} {SR : Scalar R} {BT : BackendTypes} {B : Backend R}.

Lemma batch_loss_frame (type : string) (server_model : StateDict R) (primary : R)
    (c : Client R) :
  exists r, forall w : World R,
    batch_loss type server_model primary {| self := c; world := w |}
    = ({| self := c; world := w |}, r).
Proof.
  destruct (bool_decide (type ∈ ["fed_prox"; "fed_greedy"])) eqn:Hb.
  - destruct (dss_loop (state_dict (net c)) server_model (of_int 0)) as [dss|e] eqn:Hd.
    + exists (Ok (radd primary (rmul (rdiv (mu c) (of_int 2)) dss))). intros w.
      unfold batch_loss, diff_squared_sum. rewrite Hb. run. by rewrite Hd.
    + exists (Raise e). intros w.
      unfold batch_loss, diff_squared_sum. rewrite Hb. run. by rewrite Hd.
  - exists (Ok primary). intros w. unfold batch_loss. by rewrite Hb.
Qed.

(** The inner loop reads and writes the client and the random state only:
    the files are left alone and the events appended do not depend on the
    files or on the trace so far. *)
Lemma train_batches_frame (round epoch epochs : Z) (type : string)
    (server_model : StateDict R) (batches : list (Z * Batch)) :
  forall (running_loss : R) (c : Client R) (p : ProcState),
  exists c' p' r events, forall (f : FS R) (tr : list (Event R)),
    train_batches round epoch epochs type server_model batches running_loss
      {| self := c; world := {| fs := f; proc := p; trace := tr |} |}
    = ({| self := c'; world := {| fs := f; proc := p'; trace := tr ++ events |} |}, r).
Proof.
  induction batches as [|[i batch] rest IH]; intros running_loss c p.
  - exists c, p, (Ok running_loss), []. intros f tr. cbn [train_batches]. run.
    by rewrite app_nil_r.
  - destruct (forward_loss (state_dict (net c)) (training (net c)) batch p)
      as [primary p1] eqn:Hfw.
    destruct (batch_loss_frame type server_model primary c) as [[loss|e] Hbl].
    2:{ exists c, p1, (Raise e), []. intros f tr. cbn [train_batches]. run.
        rewrite Hfw. run. rewrite Hbl. by rewrite app_nil_r. }
    destruct (backward_step (optimizer c) (state_dict (net c)) batch loss p1)
      as [[sd' opt'] p'] eqn:Hbw.
    set (c1 := {| args := args c; client_idx := client_idx c;
                  net := {| state_dict := sd'; training := training (net c) |};
                  optimizer := opt'; scheduler := scheduler c; mu := mu c;
                  train_data_loader := train_data_loader c;
                  test_data_loader := test_data_loader c |}).
    destruct (get_log_interval (args c) =? 0) eqn:Hli.
    { exists c1, p', (Raise ZeroDivisionError), [EvOptimizerStep primary loss].
      intros f tr. cbn [train_batches]. run. rewrite Hfw. run. rewrite Hbl. run.
      rewrite Hbw. run. by rewrite Hli. }
    destruct ((i mod get_log_interval (args c) =? 0) && (epoch =? epochs - 1)) eqn:Hlog.
    + destruct (IH (of_int 0) c1 p') as (c' & p'' & r & evs & Hrest).
      exists c', p'', r,
        ([EvOptimizerStep primary loss;
          LogInfoLoss round i
            (rdiv (radd running_loss loss) (of_int (get_log_interval (args c))))] ++ evs)%list.
      intros f tr. cbn [train_batches]. run. rewrite Hfw. run. rewrite Hbl. run.
      rewrite Hbw. run. rewrite Hli, Hlog. run. fold c1. rewrite Hrest.
      by rewrite <- !app_assoc.
    + destruct (IH (radd running_loss loss) c1 p') as (c' & p'' & r & evs & Hrest).
      exists c', p'', r, ([EvOptimizerStep primary loss] ++ evs)%list.
      intros f tr. cbn [train_batches]. run. rewrite Hfw. run. rewrite Hbl. run.
      rewrite Hbw. run. rewrite Hli, Hlog. fold c1. rewrite Hrest.
      by rewrite <- !app_assoc.
Qed.

Lemma loss_logs_app (a b : list (Event R)) :
  loss_logs (a ++ b) = (loss_logs a ++ loss_logs b)%list.
Proof. apply omap_app. Qed.

Lemma loss_logs_save_model (s : State R) (epoch : Z) (suffix : string) :
  loss_logs (save_model_events s epoch suffix) = [].
Proof. unfold loss_logs, save_model_events. by destruct (os_path_exists _ _). Qed.

(** [save_model], however it ends: the client and the random state are left
    alone, and no loss is logged, no scheduler or optimizer step taken. *)
Lemma save_model_any (epoch : Z) (suffix : string) (s : State R) :
  exists s' r events,
    save_model epoch suffix s = (s', r) /\
    trace (world s') = (trace (world s) ++ events)%list /\
    self s' = self s /\
    proc (world s') = proc (world s) /\
    loss_logs events = [] /\
    scheduler_steps events = 0%nat /\
    optimizer_steps events = [].
Proof.
  unfold save_model, os_mkdir, torch_save. run.
  destruct (os_path_exists (fs (world s)) _) eqn:Hex; run.
  - destruct (os_refuses_write _ _) as [e|]; run.
    + do 3 eexists. split; [reflexivity|]. cbn [world trace self proc].
      split; [rewrite <- !app_assoc; reflexivity|]. done.
    + do 3 eexists. split; [reflexivity|]. cbn [world trace self proc].
      split; [rewrite <- !app_assoc; reflexivity|]. done.
  - destruct (os_refuses_mkdir _ _) as [e|]; run.
    { do 3 eexists. split; [reflexivity|]. cbn [world trace self proc].
      split; [reflexivity|]. done. }
    rewrite Hex. run.
    destruct (os_refuses_write _ _) as [e|]; run.
    + do 3 eexists. split; [reflexivity|]. cbn [world trace self proc].
      split; [rewrite <- !app_assoc; reflexivity|]. done.
    + do 3 eexists. split; [reflexivity|]. cbn [world trace self proc].
      split; [rewrite <- !app_assoc; reflexivity|]. done.
Qed.

(** The loop over the epochs, when it returns: the client, the random
    state, the running loss and the losses logged are the same from every
    file system and trace. *)
Lemma train_epochs_returns_frame (round epochs : Z) (type : string)
    (server_model : StateDict R) (todo : list Z) :
  forall (running_loss : option R) (c : Client R) (p : ProcState),
  exists c' p' v logs, forall (f : FS R) (tr : list (Event R)) (s' : State R) r,
    train_epochs round epochs type server_model todo running_loss
      {| self := c; world := {| fs := f; proc := p; trace := tr |} |}
    = (s', Ok r) ->
    self s' = c' /\ proc (world s') = p' /\ r = v /\
    exists events, trace (world s') = (tr ++ events)%list /\ loss_logs events = logs.
Proof.
  induction todo as [|epoch rest IH]; intros running_loss c p.
  - exists c, p, running_loss, []. intros f tr s' r. cbn [train_epochs]. run.
    intros [= <- <-]. cbn [self world proc trace]. repeat split.
    exists []. by rewrite app_nil_r.
  - set (c0 := {| args := args c; client_idx := client_idx c;
                  net := {| state_dict := state_dict (net c); training := true |};
                  optimizer := optimizer c; scheduler := scheduler c; mu := mu c;
                  train_data_loader := train_data_loader c;
                  test_data_loader := test_data_loader c |}).
    destruct (iterate (train_data_loader c) p) as [batches p1] eqn:Hit.
    destruct (train_batches_frame round epoch epochs type server_model
                (enumerate batches) (of_int 0) c0 p1)
      as (c1 & p2 & [rl1|e] & evs1 & Hbatches).
    2:{ exists c, p, running_loss, []. intros f tr s' r. cbn [train_epochs]. run. fold c0.
        destruct (save_model_any round (get_cr_save_start_suffix (args c))
                    {| self := c0; world := {| fs := f; proc := p; trace := tr |} |})
          as ([c0' [f1 p0 tr1]] & r0 & evs0 & Hrun0 & Htr0 & Hself0 & Hproc0 & _).
        rewrite Hrun0. cbn [self world proc trace] in *. subst c0' p0 tr1.
        destruct r0 as [[]|e0]; run; [|done]. rewrite Hit. run. by rewrite Hbatches. }
    destruct (scheduler_step (scheduler c1) (optimizer c1)) as [sched' opt'] eqn:Hsched.
    set (c2 := {| args := args c1; client_idx := client_idx c1; net := net c1;
                  optimizer := opt'; scheduler := sched'; mu := mu c1;
                  train_data_loader := train_data_loader c1;
                  test_data_loader := test_data_loader c1 |}).
    destruct (IH (Some rl1) c2 p2) as (c' & p' & v & logs & Hrest).
    exists c', p', v, (loss_logs evs1 ++ logs)%list. intros f tr s' r.
    cbn [train_epochs]. run. fold c0.
    destruct (save_model_any round (get_cr_save_start_suffix (args c))
                {| self := c0; world := {| fs := f; proc := p; trace := tr |} |})
      as ([c0' [f1 p0 tr1]] & r0 & evs0 & Hrun0 & Htr0 & Hself0 & Hproc0 & Hl0 & _).
    rewrite Hrun0. cbn [self world proc trace] in *. subst c0' p0 tr1.
    destruct r0 as [[]|e0]; run; [|done]. rewrite Hit. run. rewrite Hbatches. run.
    rewrite Hsched. run. fold c2. intros Hrun.
    destruct (Hrest _ _ _ _ Hrun) as (Hc & Hp & Hv & evs & Htr & Hlogs).
    repeat split; try done.
    exists (evs0 ++ evs1 ++ [EvSchedulerStep] ++ evs)%list.
    split; [by rewrite Htr, <- !app_assoc|].
    rewrite !loss_logs_app, Hl0, Hlogs. done.
Qed.

(** With a seed that the seeding block takes, what [train] leaves of the
    client and of the random state, what it returns and the losses it logs,
    when it returns, are the same from every file system, random state and
    trace. *)
Lemma train_returns_frame (round epochs : Z) (type : string) (seed : Z) (c : Client R) :
  0 <= seed <= 2 ^ 32 - 1 ->
  exists c' p' v logs,
  forall (f : FS R) (p : ProcState) (tr : list (Event R)) (s' : State R) r,
    train round epochs type (Some seed)
      {| self := c; world := {| fs := f; proc := p; trace := tr |} |}
    = (s', Ok r) ->
    self s' = c' /\ proc (world s') = p' /\ Some r = v /\
    exists events, trace (world s') = (tr ++ events)%list /\ loss_logs events = logs.
Proof.
  intros Hseed.
  destruct (train_epochs_returns_frame round epochs type (state_dict (net c))
              (range epochs) None c
              {| torch_rng := torch_manual_seed seed; np_rng := np_random_seed seed;
                 py_rng := random_seed seed; cudnn_deterministic := true;
                 cudnn_benchmark := false |})
    as (c1 & p1 & v & logs & Hepochs).
  exists c1, p1, v, logs. intros f p tr s' r.
  rewrite train_eq by exact Hseed. unfold seeded, seeded_proc.
  cbn [self world fs proc trace net].
  destruct (train_epochs _ _ _ _ _ _ _) as [s1 [rl|e]] eqn:Hrun; [|done].
  destruct (Hepochs _ _ _ _ Hrun) as (Hc & Hp & Hv & evs & Htr & Hlogs).
  destruct (save_model_any round (get_cr_save_end_suffix (args (self s1))) s1)
    as (s2 & r2 & evs2 & Hrun2 & Htr2 & Hself2 & Hproc2 & Hl2 & _).
  rewrite Hrun2. destruct r2 as [[]|e]; [|done]. destruct rl as [rl|]; [|done].
  intros [= <- <-]. rewrite Hself2, Hproc2. repeat split; try done.
  exists (evs ++ evs2)%list. split; [by rewrite Htr2, Htr, <- app_assoc|].
  by rewrite loss_logs_app, Hl2, app_nil_r.
Qed.

End Frames.

(** ** Seeding *)

Section Determinism.
Context {R : Type} {SR : Scalar R} {BT : BackendTypes} {B : Backend R}.

(** C4. With a seed between [0] and [2**32 - 1], [train] starts by seeding
    torch's, numpy's and Python's generator with that seed and by pinning
    cudnn to its deterministic, non-benchmarking mode: the call is the
    unseeded call from the random state so set.  Hence from the same client
    (network, optimizer, scheduler, data), the same files and the same seed,
    two calls end in the same state and return or raise the same, whatever
    the three generators and the two cudnn flags were before.  And for every
    seed: two calls from the same client that return, from any files, any
    random state and any earlier trace, leave the same client (its parameter
    set among it) and the same random state, return the same value and log
    the same losses. *)
Theorem train_seeded_deterministic (c : Client R) (round epochs : Z) (type : string)
    (seed : Z) :
  (0 <= seed <= 2 ^ 32 - 1 ->
   (forall (f : FS R) (p : ProcState) (tr : list (Event R)),
      train round epochs type (Some seed)
        {| self := c; world := {| fs := f; proc := p; trace := tr |} |}
      = train round epochs type None
          {| self := c;
             world := {| fs := f;
                         proc := {| torch_rng := torch_manual_seed seed;
                                    np_rng := np_random_seed seed;
                                    py_rng := random_seed seed;
                                    cudnn_deterministic := true;
                                    cudnn_benchmark := false |};
                         trace := tr |} |}) /\
   (forall (f : FS R) (tr : list (Event R)) (p1 p2 : ProcState),
      train round epochs type (Some seed)
        {| self := c; world := {| fs := f; proc := p1; trace := tr |} |}
      = train round epochs type (Some seed)
          {| self := c; world := {| fs := f; proc := p2; trace := tr |} |})) /\
  (forall (f1 f2 : FS R) (p1 p2 : ProcState) (tr1 tr2 : list (Event R))
          (s1 s2 : State R) (v1 v2 : R),
     train round epochs type (Some seed)
       {| self := c; world := {| fs := f1; proc := p1; trace := tr1 |} |} = (s1, Ok v1) ->
     train round epochs type (Some seed)
       {| self := c; world := {| fs := f2; proc := p2; trace := tr2 |} |} = (s2, Ok v2) ->
     self s1 = self s2 /\ v1 = v2 /\ proc (world s1) = proc (world s2) /\
     exists events1 events2,
       trace (world s1) = (tr1 ++ events1)%list /\
       trace (world s2) = (tr2 ++ events2)%list /\
       loss_logs events1 = loss_logs events2).
Proof.
  assert (Hseeding :
            0 <= seed <= 2 ^ 32 - 1 ->
            forall (f : FS R) (p : ProcState) (tr : list (Event R)),
              train round epochs type (Some seed)
                {| self := c; world := {| fs := f; proc := p; trace := tr |} |}
              = train round epochs type None
                  {| self := c;
                     world := {| fs := f; proc := seeded_proc (Some seed) p;
                                 trace := tr |} |}).
  { intros Hseed f p tr. by rewrite !train_eq. }
  split; [intros Hseed; split|].
  - exact (Hseeding Hseed).
  - intros f tr p1 p2. by rewrite !Hseeding.
  - intros f1 f2 p1 p2 tr1 tr2 s1 s2 v1 v2 Hrun1 Hrun2.
    destruct (decide (0 <= seed <= 2 ^ 32 - 1)) as [Hseed|Hseed].
    2:{ by rewrite train_rejected in Hrun1. }
    destruct (train_returns_frame round epochs type seed c Hseed)
      as (c' & p' & v & logs & Hframe).
    destruct (Hframe _ _ _ _ _ Hrun1) as (Hc1 & Hp1 & Hv1 & evs1 & Htr1 & Hl1).
    destruct (Hframe _ _ _ _ _ Hrun2) as (Hc2 & Hp2 & Hv2 & evs2 & Htr2 & Hl2).
    split; [congruence|]. split; [congruence|]. split; [congruence|].
    exists evs1, evs2. split; [done|]. split; [done|]. congruence.
Qed.

End Determinism.

Lemma train_seeded_deterministic_witness :
  let c := Toy.client [("w", [q 1])] [[(1, 1)]] in
  let w1 : World Qc :=
    {| fs := {| fs_dirs := ∅; fs_files := ∅ |};
       proc := {| torch_rng := 5; np_rng := 6; py_rng := 7;
                  cudnn_deterministic := false; cudnn_benchmark := true |};
       trace := [] |} in
  let w2 : World Qc :=
    {| fs := {| fs_dirs := {["models"]}; fs_files := ∅ |};
       proc := {| torch_rng := 0; np_rng := 0; py_rng := 0;
                  cudnn_deterministic := true; cudnn_benchmark := false |};
       trace := [EvSchedulerStep] |} in
  exists s1 s2 v,
    train 3 2 "fed_prox" (Some 40) {| self := c; world := w1 |} = (s1, Ok v) /\
    train 3 2 "fed_prox" (Some 40) {| self := c; world := w2 |} = (s2, Ok v) /\
    self s1 = self s2.
Proof.
  intros c w1 w2.
  destruct (train 3 2 "fed_prox" (Some 40) {| self := c; world := w1 |})
    as [s1 [v1|e1]] eqn:Hrun1; [|by vm_compute in Hrun1].
  destruct (train 3 2 "fed_prox" (Some 40) {| self := c; world := w2 |})
    as [s2 [v2|e2]] eqn:Hrun2; [|by vm_compute in Hrun2].
  destruct (proj2 (train_seeded_deterministic c 3 2 "fed_prox" 40)
              _ _ _ _ _ _ _ _ _ _ Hrun1 Hrun2) as (Hself & Hv & _).
  exists s1, s2, v1. split; [reflexivity|]. split; [|exact Hself].
  rewrite Hv. reflexivity.
Defined.

(** Without a seed the outcome does depend on the generators: the parameter
    sets reached from two states that differ in torch's generator differ. *)
Lemma train_unseeded_depends_on_generator :
  let c := Toy.client [("w", [q 1])] [[(1, 1)]] in
  let p (g : Z) : ProcState :=
    {| torch_rng := g; np_rng := 0; py_rng := 0;
       cudnn_deterministic := false; cudnn_benchmark := true |} in
  let w (g : Z) : World Qc :=
    {| fs := {| fs_dirs := ∅; fs_files := ∅ |}; proc := p g; trace := [] |} in
  state_dict (net (self (fst (train 3 1 "fed_avg" None {| self := c; world := w 0 |}))))
  <> state_dict (net (self (fst (train 3 1 "fed_avg" None {| self := c; world := w 1 |})))).
Proof. vm_compute. discriminate. Qed.

(** ** The start checkpoint *)

(** C3 fails on the code: with two epochs and one batch the start checkpoint
    is written twice, the second time after a gradient step, and the file is
    left with the parameters of the start of the last epoch, not those of the
    start of the round. *)
Lemma train_saves_start_checkpoint_every_epoch :
  let s := Toy.state [("w", [q 1])] [[(1, 1)]] in
  let s' := fst (train 3 2 "fed_avg" (Some 40) s) in
  raises (snd (train 3 2 "fed_avg" (Some 40) s)) = false /\
  saves_and_steps (trace (world s'))
  = [Some "models/model_7_3_start.model"; None;
     Some "models/model_7_3_start.model"; None;
     Some "models/model_7_3_end.model"] /\
  fs_files (fs (world s')) !! "models/model_7_3_start.model"
  = Some (PyOrderedDict [("w", [q (-40)])]).
Proof. vm_compute. repeat split. Qed.

(** * Further properties of the client *)

(** ** Exchanging parameters *)

Section Exchange.
Context {R : Type} {SR : Scalar R} {BT : BackendTypes} {B : Backend R}.

Lemma sd_get_Some_keys (sd : StateDict R) (name : string) (t : Tensor R) :
  sd_get name sd = Some t -> name ∈ keys sd.
Proof.
  induction sd as [|[k t0] sd IH]; simpl; [done|].
  destruct (String.eqb_spec k name) as [->|Hne]; intros H.
  - left.
  - right. by apply IH.
Qed.

Lemma sd_get_None_keys (sd : StateDict R) (name : string) :
  sd_get name sd = None -> name ∉ keys sd.
Proof.
  induction sd as [|[k t0] sd IH]; simpl; [intros _; apply not_elem_of_nil|].
  destruct (String.eqb_spec k name) as [->|Hne]; intros H; [done|].
  apply not_elem_of_cons. split; [done|]. by apply IH.
Qed.

Lemma sd_get_loaded (net_sd new_params : StateDict R) (name : string) :
  sd_get name (map (loaded_entry new_params) net_sd)
  = match sd_get name net_sd with
    | Some t =>
        Some (match sd_get name new_params with
              | Some input_param =>
                  if (length input_param =? length t)%nat then input_param else t
              | None => t
              end)
    | None => None
    end.
Proof.
  induction net_sd as [|[k t] rest IH]; simpl; [done|].
  assert (Hfst : fst (loaded_entry new_params (k, t)) = k).
  { unfold loaded_entry. simpl. destruct (sd_get k new_params); [|done].
    by destruct (_ =? _)%nat. }
  destruct (loaded_entry new_params (k, t)) as [k' t'] eqn:Hle. simpl in Hfst. subst k'.
  destruct (String.eqb_spec k name) as [->|Hne]; [|exact IH].
  unfold loaded_entry in Hle. simpl in Hle.
  destruct (sd_get name new_params) as [inp|]; [|congruence].
  destruct (length inp =? length t)%nat; congruence.
Qed.

Lemma shapes_loaded (net_sd new_params : StateDict R) :
  shapes (map (loaded_entry new_params) net_sd) = shapes net_sd.
Proof.
  unfold shapes. rewrite map_map. apply map_ext. intros [k t].
  unfold loaded_entry. simpl. destruct (sd_get k new_params) as [inp|]; [|done].
  destruct (length inp =? length t)%nat eqn:Hlen; [|done].
  apply Nat.eqb_eq in Hlen. simpl. by rewrite Hlen.
Qed.

Lemma load_from_state_dict_fst (net_sd new_params : StateDict R) (strict : bool) :
  fst (fst (load_from_state_dict net_sd new_params strict))
  = map (loaded_entry new_params) net_sd.
Proof.
  induction net_sd as [|[name param] rest IH]; simpl; [done|].
  destruct (load_from_state_dict rest new_params strict) as [[rest' mk] errs].
  simpl in IH. subst rest'. unfold loaded_entry. simpl.
  destruct (sd_get name new_params) as [inp|]; [|done].
  by destruct (length inp =? length param)%nat.
Qed.

Lemma load_from_state_dict_errors (net_sd new_params : StateDict R) :
  snd (load_from_state_dict net_sd new_params true)
  = omap (fun e => match sd_get (fst e) new_params with
                   | Some input_param =>
                       if (length input_param =? length (snd e))%nat then None
                       else Some (SizeMismatch (fst e))
                   | None => None
                   end) net_sd.
Proof.
  induction net_sd as [|[name param] rest IH]; simpl; [done|].
  destruct (load_from_state_dict rest new_params true) as [[rest' mk] errs].
  simpl in IH. subst errs.
  destruct (sd_get name new_params) as [inp|]; [|done].
  by destruct (length inp =? length param)%nat.
Qed.

Lemma load_state_dict_fst (net_sd new_params : StateDict R) :
  fst (load_state_dict net_sd new_params true) = map (loaded_entry new_params) net_sd.
Proof.
  unfold load_state_dict.
  pose proof (load_from_state_dict_fst net_sd new_params true) as Hfst.
  destruct (load_from_state_dict net_sd new_params true) as [[net' mk] errs].
  simpl in Hfst. subst net'.
  by repeat match goal with |- context [match ?x with _ => _ end] => destruct x end.
Qed.

(** The state in which [update_nn_parameters] leaves the client, whatever
    the outcome. *)
Lemma update_nn_parameters_state (s : State R) (new_params : StateDict R) :
  fst (update_nn_parameters new_params s)
  = {| self := {| args := args (self s); client_idx := client_idx (self s);
                  net := {| state_dict :=
                              map (loaded_entry new_params) (state_dict (net (self s)));
                            training := training (net (self s)) |};
                  optimizer := optimizer (self s); scheduler := scheduler (self s);
                  mu := mu (self s);
                  train_data_loader := train_data_loader (self s);
                  test_data_loader := test_data_loader (self s) |};
       world := world s |}
  /\ snd (update_nn_parameters new_params s)
     = match snd (load_state_dict (state_dict (net (self s))) new_params true) with
       | Ok _ => Ok tt
       | Raise e => Raise e
       end.
Proof.
  unfold update_nn_parameters, deepcopy. run.
  pose proof (load_state_dict_fst (state_dict (net (self s))) new_params) as Hfst.
  destruct (load_state_dict _ _ _) as [sd' r]. simpl in Hfst. subst sd'.
  run. destruct r; run; split; reflexivity.
Qed.

Lemma sd_get_NoDup (sd : StateDict R) (k : string) (t : Tensor R) :
  NoDup (keys sd) -> (k, t) ∈ sd -> sd_get k sd = Some t.
Proof.
  induction sd as [|[k0 t0] sd IH]; simpl; intros Hnd Hin.
  - by apply elem_of_nil in Hin.
  - apply NoDup_cons in Hnd as [Hk Hnd]. apply elem_of_cons in Hin as [[= -> ->]|Hin].
    + by rewrite String.eqb_refl.
    + destruct (String.eqb_spec k0 k) as [->|Hne]; [|by apply IH].
      exfalso. apply Hk. apply list_elem_of_fmap. by exists (k, t).
Qed.

Lemma size_errors_nil (net_sd new_params : StateDict R) :
  same_shapes new_params net_sd = true ->
  omap (fun e => match sd_get (fst e) new_params with
                 | Some input_param =>
                     if (length input_param =? length (snd e))%nat then None
                     else Some (SizeMismatch (fst e))
                 | None => None
                 end) net_sd = [].
Proof.
  unfold same_shapes. induction net_sd as [|[k t] rest IH]; simpl; [done|].
  intros H. apply andb_prop in H as [Hhd Htl].
  destruct (sd_get k new_params) as [inp|]; [rewrite Hhd|]; by apply IH.
Qed.

Lemma load_state_dict_ok (net_sd new_params : StateDict R) :
  missing_in net_sd new_params = [] ->
  unexpected_in net_sd new_params = [] ->
  same_shapes new_params net_sd = true ->
  load_state_dict net_sd new_params true
  = (map (loaded_entry new_params) net_sd, Ok ([], [])).
Proof.
  intros Hmiss Hunexp Hsh. unfold load_state_dict.
  pose proof (load_from_state_dict_errors net_sd new_params) as Herrs.
  destruct (load_from_state_dict_spec net_sd new_params) as [errs Heq].
  rewrite Heq in Herrs |- *. simpl in Herrs. rewrite size_errors_nil in Herrs by done.
  subst errs. fold (unexpected_in net_sd new_params). by rewrite Hmiss, Hunexp.
Qed.

(** X1. When [new_params] has exactly the layer names of the network, each
    with the shape the network has, [update_nn_parameters] returns normally
    and afterwards the network's parameter set binds every name to the tensor
    that [new_params] gives it, in the network's own order of layers; the
    optimizer, the scheduler, the mode and the world are untouched. *)
Theorem update_nn_parameters_loads (s : State R) (new_params : StateDict R) :
  missing_in (state_dict (net (self s))) new_params = [] ->
  unexpected_in (state_dict (net (self s))) new_params = [] ->
  same_shapes new_params (state_dict (net (self s))) = true ->
  exists s',
    update_nn_parameters new_params s = (s', Ok tt) /\
    (forall name, sd_get name (state_dict (net (self s'))) = sd_get name new_params) /\
    keys (state_dict (net (self s'))) = keys (state_dict (net (self s))) /\
    optimizer (self s') = optimizer (self s) /\
    scheduler (self s') = scheduler (self s) /\
    training (net (self s')) = training (net (self s)) /\
    world s' = world s.
Proof.
  intros Hmiss Hunexp Hsh.
  destruct (update_nn_parameters_state s new_params) as [Hst Hres].
  rewrite (load_state_dict_ok _ _ Hmiss Hunexp Hsh) in Hres. simpl in Hres.
  exists (fst (update_nn_parameters new_params s)).
  split; [by destruct (update_nn_parameters new_params s); simpl in *; subst|].
  rewrite Hst. cbn [self net state_dict optimizer scheduler training world].
  split; [|split; [|done]].
  - intros name. rewrite sd_get_loaded.
    destruct (sd_get name (state_dict (net (self s)))) as [t|] eqn:Hnet.
    + destruct (sd_get name new_params) as [inp|] eqn:Hnew.
      * assert (Hlen : (length inp =? length t)%nat = true); [|by rewrite Hlen].
        clear -Hsh Hnet Hnew. unfold same_shapes in Hsh.
        induction (state_dict (net (self s))) as [|[k t0] rest IH]; simpl in *; [done|].
        apply andb_prop in Hsh as [Hhd Htl].
        destruct (String.eqb_spec k name) as [->|Hne]; [|by apply IH].
        injection Hnet as ->. by rewrite Hnew in Hhd.
      * exfalso. apply sd_get_Some_keys in Hnet. apply sd_get_None_keys in Hnew.
        assert (Hin : name ∈ missing_in (state_dict (net (self s))) new_params).
        { unfold missing_in. apply list_elem_of_filter. split; [|done].
          unfold sd_mem. destruct (sd_get name new_params) eqn:Hg; [|done].
          by apply sd_get_Some_keys in Hg. }
        rewrite Hmiss in Hin. by apply elem_of_nil in Hin.
    + destruct (sd_get name new_params) as [inp|] eqn:Hnew; [|done].
      exfalso. apply sd_get_Some_keys in Hnew.
      assert (Hin : name ∈ unexpected_in (state_dict (net (self s))) new_params).
      { unfold unexpected_in. apply list_elem_of_filter. split; [|done].
        unfold sd_mem. by rewrite Hnet. }
      rewrite Hunexp in Hin. by apply elem_of_nil in Hin.
  - unfold keys. rewrite map_map. apply map_ext. intros [k t].
    unfold loaded_entry. simpl. destruct (sd_get k new_params); [|done].
    by destruct (_ =? _)%nat.
Qed.

Lemma loaded_entry_own (sd : StateDict R) :
  NoDup (keys sd) -> map (loaded_entry sd) sd = sd.
Proof.
  intros Hnd. rewrite <- (map_id sd) at 3. apply map_ext_in. intros [k t] Hin.
  apply list_elem_of_In in Hin. unfold loaded_entry. simpl.
  rewrite (sd_get_NoDup sd k t Hnd Hin). by rewrite Nat.eqb_refl.
Qed.

Lemma filter_nil_all {A} (P : A -> Prop) `{forall x, Decision (P x)} (l : list A) :
  (forall x, x ∈ l -> ~ P x) -> filter P l = [].
Proof.
  induction l as [|x l IH]; intros Hall; [done|].
  rewrite filter_cons, decide_False by (apply Hall; left).
  apply IH. intros y Hy. apply Hall. by right.
Qed.

Lemma keys_sd_mem (sd : StateDict R) (k : string) : k ∈ keys sd -> sd_mem k sd = true.
Proof.
  intros Hin. unfold sd_mem. destruct (sd_get k sd) eqn:Hget; [done|].
  by apply sd_get_None_keys in Hget.
Qed.

Lemma missing_in_own (sd : StateDict R) : missing_in sd sd = [].
Proof.
  unfold missing_in. apply filter_nil_all. intros k Hk. by rewrite keys_sd_mem.
Qed.

Lemma unexpected_in_own (sd : StateDict R) : unexpected_in sd sd = [].
Proof.
  unfold unexpected_in. apply filter_nil_all. intros k Hk. by rewrite keys_sd_mem.
Qed.

(** X2. Handing the client its own parameter set back changes nothing:
    [update_nn_parameters(get_nn_parameters())] returns normally and leaves
    the whole state as it was. *)
Theorem update_nn_parameters_own (s : State R) :
  NoDup (keys (state_dict (net (self s)))) ->
  (params ← get_nn_parameters; update_nn_parameters params) s = (s, Ok tt).
Proof.
  intros Hnd. run.
  destruct (update_nn_parameters_state s (state_dict (net (self s)))) as [Hst Hres].
  rewrite (load_state_dict_ok _ _ (missing_in_own _) (unexpected_in_own _)
             (same_shapes_refl _ Hnd)) in Hres. simpl in Hres.
  rewrite loaded_entry_own in Hst by done.
  destruct (update_nn_parameters _ s) as [s' r]. simpl in *. subst.
  by destruct s as [[? ? [? ?] ? ? ? ? ?] ?].
Qed.

(** X3. Whatever [new_params] is and whether the call raises or not,
    [update_nn_parameters] keeps the layer names, their order and the shape
    of every layer, and it never touches the optimizer, the scheduler, the
    proximal coefficient, the data loaders, the mode or the world. *)
Theorem update_nn_parameters_keeps_architecture (s : State R) (new_params : StateDict R) :
  let s' := fst (update_nn_parameters new_params s) in
  shapes (state_dict (net (self s'))) = shapes (state_dict (net (self s))) /\
  keys (state_dict (net (self s'))) = keys (state_dict (net (self s))) /\
  training (net (self s')) = training (net (self s)) /\
  optimizer (self s') = optimizer (self s) /\
  scheduler (self s') = scheduler (self s) /\
  mu (self s') = mu (self s) /\
  train_data_loader (self s') = train_data_loader (self s) /\
  test_data_loader (self s') = test_data_loader (self s) /\
  world s' = world s.
Proof.
  intros s'. subst s'. rewrite (proj1 (update_nn_parameters_state s new_params)).
  cbn [self net state_dict optimizer scheduler training world mu train_data_loader
       test_data_loader].
  split; [apply shapes_loaded|]. split; [|done].
  pose proof (shapes_loaded (state_dict (net (self s))) new_params) as Hsh.
  apply (f_equal (map fst)) in Hsh. unfold shapes in Hsh. rewrite !map_map in Hsh.
  unfold keys. rewrite map_map. exact Hsh.
Qed.

(** X4. A layer that [new_params] supplies with another shape makes
    [update_nn_parameters] raise, even when all the names match: the error
    lists a size mismatch for that layer, and the layer keeps its tensor. *)
Theorem update_nn_parameters_size_mismatch (s : State R) (new_params : StateDict R)
    (name : string) (t input_param : Tensor R) :
  sd_get name (state_dict (net (self s))) = Some t ->
  sd_get name new_params = Some input_param ->
  length input_param <> length t ->
  exists error_msgs s',
    update_nn_parameters new_params s
    = (s', Raise (RuntimeError_load_state_dict error_msgs)) /\
    SizeMismatch name ∈ error_msgs /\
    sd_get name (state_dict (net (self s'))) = Some t.
Proof.
  intros Hnet Hnew Hlen.
  destruct (update_nn_parameters_state s new_params) as [Hst Hres].
  assert (Herr : exists errs,
             snd (load_state_dict (state_dict (net (self s))) new_params true)
             = Raise (RuntimeError_load_state_dict errs) /\ SizeMismatch name ∈ errs).
  { unfold load_state_dict.
    pose proof (load_from_state_dict_errors (state_dict (net (self s))) new_params) as Herrs.
    destruct (load_from_state_dict _ _ _) as [[net' mk] errs]. simpl in Herrs.
    assert (Hin : SizeMismatch name ∈ errs).
    { subst errs. clear -Hnet Hnew Hlen.
      induction (state_dict (net (self s))) as [|[k t0] rest IH]; simpl in *; [done|].
      destruct (String.eqb_spec k name) as [->|Hne].
      - injection Hnet as ->. rewrite Hnew.
        apply Nat.eqb_neq in Hlen. rewrite Hlen. left.
      - destruct (sd_get k new_params) as [inp|]; [destruct (_ =? _)%nat|];
          try right; by apply IH. }
    destruct (filter _ _) as [|u us]; destruct mk as [|m ms]; simpl;
      (destruct errs as [|e errs]; [by apply elem_of_nil in Hin|]);
      eexists; (split; [reflexivity|]); repeat (try exact Hin; right). }
  destruct Herr as (errs & Hraise & Hin). rewrite Hraise in Hres.
  exists errs, (fst (update_nn_parameters new_params s)).
  split; [by destruct (update_nn_parameters new_params s); simpl in *; subst|].
  split; [done|]. rewrite Hst. cbn [self net state_dict].
  rewrite sd_get_loaded, Hnet, Hnew. apply Nat.eqb_neq in Hlen. by rewrite Hlen.
Qed.

End Exchange.

Lemma update_nn_parameters_loads_witness :
  exists s',
    update_nn_parameters [("b", [Toy.q 9]); ("w", [Toy.q 7; Toy.q 8])]
      (Toy.state [("w", [Toy.q 1; Toy.q 2]); ("b", [Toy.q 3])] [])
    = (s', Ok tt) /\
    state_dict (net (self s')) = [("w", [Toy.q 7; Toy.q 8]); ("b", [Toy.q 9])].
Proof.
  destruct (update_nn_parameters_loads
              (Toy.state [("w", [Toy.q 1; Toy.q 2]); ("b", [Toy.q 3])] [])
              [("b", [Toy.q 9]); ("w", [Toy.q 7; Toy.q 8])])
    as (s' & Hrun & _); [reflexivity..|].
  exists s'. split; [exact Hrun|].
  apply (f_equal (fun r => state_dict (net (self (fst r))))) in Hrun. simpl in Hrun.
  rewrite <- Hrun. reflexivity.
Defined.

Lemma update_nn_parameters_own_witness :
  (params ← get_nn_parameters; update_nn_parameters params)
    (Toy.state [("w", [Toy.q 1; Toy.q 2]); ("b", [Toy.q 3])] [])
  = (Toy.state [("w", [Toy.q 1; Toy.q 2]); ("b", [Toy.q 3])] [], Ok tt).
Proof.
  apply update_nn_parameters_own. simpl.
  by apply (bool_decide_unpack _).
Defined.

Lemma update_nn_parameters_size_mismatch_witness :
  exists error_msgs s',
    update_nn_parameters [("w", [Toy.q 7]); ("b", [Toy.q 9])]
      (Toy.state [("w", [Toy.q 1; Toy.q 2]); ("b", [Toy.q 3])] [])
    = (s', Raise (RuntimeError_load_state_dict error_msgs)) /\
    SizeMismatch "w" ∈ error_msgs /\
    sd_get "w" (state_dict (net (self s'))) = Some [Toy.q 1; Toy.q 2].
Proof.
  apply (update_nn_parameters_size_mismatch
           (Toy.state [("w", [Toy.q 1; Toy.q 2]); ("b", [Toy.q 3])] [])
           [("w", [Toy.q 7]); ("b", [Toy.q 9])] "w" [Toy.q 1; Toy.q 2] [Toy.q 7]);
    [reflexivity | reflexivity | simpl; lia].
Defined.

(** ** More on the parameter distance *)

Section DistanceMore.
Context {R : Type} {SR : Scalar R} {BT : BackendTypes} {B : Backend R}.

Lemma dss_loop_disjoint (params1 items : StateDict R) (dss : R) :
  Forall (fun e => sd_mem (fst e) params1 = false) items ->
  dss_loop params1 items dss = Ok dss.
Proof.
  induction 1 as [|[name param2] rest Hhd Htl IH]; simpl; [done|].
  unfold sd_mem in Hhd. simpl in Hhd. by destruct (sd_get name params1).
Qed.

(** X5. A model or mapping that shares no layer name with the client is at
    distance zero: [diff_squared_sum] skips every entry, whatever the shapes,
    and returns the initial [0]. *)
Theorem diff_squared_sum_disjoint (s : State R) (model2 : PyObject R) :
  accepted model2 = true ->
  Forall (fun e => sd_mem (fst e) (state_dict (net (self s))) = false) (entries model2) ->
  diff_squared_sum model2 s = (s, Ok (of_int 0)).
Proof.
  intros Hacc Hdis. unfold diff_squared_sum. run.
  destruct model2 as [items|items|items|]; simpl in *; try done.
  all: by rewrite dss_loop_disjoint.
Qed.

Lemma tensor_self_distance_zero (t : Tensor R) :
  rmul (of_int 0) (of_int 0) = of_int 0 ->
  radd (of_int 0) (of_int 0) = of_int 0 ->
  Forall (fun x => rsub x x = of_int 0) t ->
  tensor_sub t t = Ok (zip_with rsub t t)
  /\ tensor_sum (tensor_pow2 (zip_with rsub t t)) = of_int 0.
Proof.
  intros Hmul Hadd Ht. split.
  - unfold tensor_sub, broadcast2. by rewrite Nat.eqb_refl.
  - unfold tensor_sum, tensor_pow2.
    induction Ht as [|x t Hx Ht IH]; simpl; [done|].
    by rewrite Hx, Hmul, Hadd.
Qed.

Lemma dss_loop_own (params1 items : StateDict R) :
  rmul (of_int 0) (of_int 0) = of_int 0 ->
  radd (of_int 0) (of_int 0) = of_int 0 ->
  all_zero_diff items ->
  Forall (fun e => sd_get (fst e) params1 = Some (snd e)) items ->
  dss_loop params1 items (of_int 0) = Ok (of_int 0).
Proof.
  intros Hmul Hadd Hz Hown.
  induction Hown as [|[name t] rest Hhd Htl IH]; simpl in *; [done|].
  apply Forall_cons in Hz as [Hzt Hz]. rewrite Hhd.
  destruct (tensor_self_distance_zero t Hmul Hadd Hzt) as [-> ->].
  rewrite Hadd. by apply IH.
Qed.

(** X6. The distance of the client's parameter set to a copy of itself is
    zero, so the proximal term vanishes as long as no gradient step has moved
    the parameters away from the snapshot.  The arithmetic facts used are
    [x - x = 0] for the elements (true of every finite float), [0 * 0 = 0]
    and [0 + 0 = 0]. *)
Theorem diff_squared_sum_own (s : State R) :
  NoDup (keys (state_dict (net (self s)))) ->
  rmul (of_int 0) (of_int 0) = of_int 0 ->
  radd (of_int 0) (of_int 0) = of_int 0 ->
  all_zero_diff (state_dict (net (self s))) ->
  diff_squared_sum (PyOrderedDict (deepcopy (state_dict (net (self s))))) s
  = (s, Ok (of_int 0)).
Proof.
  intros Hnd Hmul Hadd Hz. unfold diff_squared_sum, deepcopy. run.
  rewrite dss_loop_own; try done.
  apply Forall_forall. intros [k t] Hin. simpl. by apply sd_get_NoDup.
Qed.

End DistanceMore.

Lemma diff_squared_sum_disjoint_witness :
  diff_squared_sum (PyOrderedDict [("v", [Toy.q 1; Toy.q 2; Toy.q 3])])
    (Toy.state [("w", [Toy.q 1; Toy.q 2])] [])
  = (Toy.state [("w", [Toy.q 1; Toy.q 2])] [], Ok (of_int 0)).
Proof.
  apply diff_squared_sum_disjoint; [reflexivity|].
  repeat constructor.
Defined.

Lemma diff_squared_sum_own_witness :
  diff_squared_sum (PyOrderedDict [("w", [Toy.q 1; Toy.q 2]); ("b", [Toy.q 3])])
    (Toy.state [("w", [Toy.q 1; Toy.q 2]); ("b", [Toy.q 3])] [])
  = (Toy.state [("w", [Toy.q 1; Toy.q 2]); ("b", [Toy.q 3])] [], Ok (of_int 0)).
Proof.
  apply (diff_squared_sum_own (Toy.state [("w", [Toy.q 1; Toy.q 2]); ("b", [Toy.q 3])] [])).
  - by apply (bool_decide_unpack _).
  - apply Qc_is_canon. reflexivity.
  - apply Qc_is_canon. reflexivity.
  - repeat constructor; apply Qc_is_canon; reflexivity.
Defined.

(** ** More on precision and recall *)

Section MetricsMore.

Lemma entry_le_col_sum (m : Np.ndarray2) (r c : nat) :
  Forall (Forall (fun x => 0 <= x)) m -> Np.entry m r c <= col_sum m c.
Proof.
  unfold Np.entry, col_sum. intros Hpos. revert r.
  induction Hpos as [|row m Hrow Hm IH]; intros [|r]; simpl.
  - by destruct c.
  - by destruct c.
  - pose proof (list_sum_Z_nonneg (map (fun row => nth c row 0) m)) as Hs.
    assert (Forall (fun x => 0 <= x) (map (fun row => nth c row 0) m)) as Hall.
    { clear -Hm. induction Hm; simpl; constructor; auto using nth_nonneg. }
    specialize (Hs Hall). lia.
  - specialize (IH r). pose proof (nth_nonneg row c Hrow). lia.
Qed.

Lemma entry_nonneg (m : Np.ndarray2) (r c : nat) :
  Forall (Forall (fun x => 0 <= x)) m -> 0 <= Np.entry m r c.
Proof.
  intros Hpos. unfold Np.entry. apply nth_nonneg. by apply Forall_nth_row.
Qed.

Lemma entry_le_row_sum (m : Np.ndarray2) (r c : nat) :
  Forall (Forall (fun x => 0 <= x)) m -> Np.entry m r c <= row_sum m r.
Proof.
  intros Hpos. unfold Np.entry, row_sum. apply nth_le_sum. by apply Forall_nth_row.
Qed.

(** X7. In a confusion matrix a class that was never predicted (column
    sum zero) gets the precision NaN, and a class that never occurs (row sum
    zero) the recall NaN: the diagonal entry is zero too, and [0 / 0] is not
    a number, not an infinity. *)
Theorem absent_class_is_nan (n : nat) (m : Np.ndarray2) (c : nat) :
  is_confusion_matrix n m -> (c < n)%nat ->
  exists precision recall,
    calculate_class_precision m = Ok precision /\
    calculate_class_recall m = Ok recall /\
    length precision = n /\ length recall = n /\
    (col_sum m c = 0 -> precision !! c = Some S754_nan) /\
    (row_sum m c = 0 -> recall !! c = Some S754_nan).
Proof.
  intros Hm Hc. pose proof Hm as (Hn & Hrows & Hpos & Htot).
  rewrite (precision_square n m Hm), (recall_square n m Hm).
  do 2 eexists. split; [reflexivity|]. split; [reflexivity|].
  rewrite !length_map, !length_seq. split; [done|]. split; [done|].
  split; intros Hzero.
  - rewrite list_lookup_fmap, lookup_seq_lt by done. simpl.
    pose proof (entry_le_col_sum m c c Hpos). pose proof (entry_nonneg m c c Hpos).
    replace (Np.entry m c c) with 0 by lia. by rewrite Hzero.
  - rewrite list_lookup_fmap, lookup_seq_lt by done. simpl.
    pose proof (entry_le_row_sum m c c Hpos). pose proof (entry_nonneg m c c Hpos).
    replace (Np.entry m c c) with 0 by lia. by rewrite Hzero.
Qed.

Lemma rectangular_ncols (r c : nat) (m : Np.ndarray2) :
  rectangular r c m -> (0 < r)%nat -> Np.ncols m = c.
Proof.
  intros [Hr Hc] Hpos. destruct m as [|row m]; simpl in *; [lia|]. by inversion Hc.
Qed.

(** X8. On an array that is not square the two metrics part ways: with
    more columns than rows (and at least two rows) the precision raises
    numpy's broadcasting [ValueError] while the recall is computed; with more
    rows than columns (and at least two columns) it is the other way
    round. *)
Theorem metrics_on_non_square (r c : nat) (m : Np.ndarray2) :
  rectangular r c m ->
  ((2 <= r)%nat -> (r < c)%nat ->
   raises (calculate_class_precision m) = true /\
   raises (calculate_class_recall m) = false) /\
  ((2 <= c)%nat -> (c < r)%nat ->
   raises (calculate_class_precision m) = false /\
   raises (calculate_class_recall m) = true).
Proof.
  intros Hrect. pose proof Hrect as [Hr Hc].
  unfold calculate_class_precision, calculate_class_recall, Np.true_divide.
  unfold Np.diagonal, Np.sum_axis0, Np.sum_axis1, Np.nrows.
  rewrite !length_map, !length_seq, Hr.
  split; intros H2 Hlt; rewrite (rectangular_ncols r c m Hrect) by lia.
  - rewrite Nat.min_l by lia. rewrite Nat.eqb_refl.
    destruct (Nat.eqb_spec r c) as [|_]; [lia|]. split; [|done].
    destruct r as [|[|r]]; [lia..|]. destruct c as [|[|[|c]]]; [lia..|].
    done.
  - rewrite Nat.min_r by lia. rewrite Nat.eqb_refl.
    destruct (Nat.eqb_spec c r) as [|_]; [lia|]. split; [done|].
    destruct c as [|[|c]]; [lia..|]. destruct m as [|row0 [|row1 [|row2 m]]];
      simpl in Hr; [lia..|]. done.
Qed.

End MetricsMore.

Lemma metrics_on_non_square_witness :
  raises (calculate_class_precision [[1; 2; 3]; [4; 5; 6]]) = true /\
  raises (calculate_class_recall [[1; 2; 3]; [4; 5; 6]]) = false.
Proof.
  apply (proj1 (metrics_on_non_square 2 3 [[1; 2; 3]; [4; 5; 6]]
                  ltac:(split; [reflexivity | repeat constructor]))); lia.
Defined.

Lemma absent_class_is_nan_witness :
  exists precision recall,
    calculate_class_precision [[3; 0]; [2; 0]] = Ok precision /\
    calculate_class_recall [[3; 0]; [2; 0]] = Ok recall /\
    precision !! 1%nat = Some S754_nan.
Proof.
  destruct (absent_class_is_nan 2 [[3; 0]; [2; 0]] 1)
    as (p & r & Hp & Hr & _ & _ & Hnan & _).
  - split; [reflexivity|]. split; [repeat constructor|].
    split; [repeat constructor; lia|]. by vm_compute.
  - lia.
  - exists p, r. split; [exact Hp|]. split; [exact Hr|]. by apply Hnan.
Defined.

(** ** Checkpoint files of different rounds and suffixes *)

Section CheckpointFiles.
Context {R : Type} {SR : Scalar R} {BT : BackendTypes} {B : Backend R}.

Lemma full_save_path_split_round (c : Client R) :
  exists pre, forall epoch suffix,
    full_save_path c epoch suffix
    = pre +:+ (pretty epoch +:+ ("_" +:+ (suffix +:+ ".model"))).
Proof.
  unfold full_save_path, os_path_join.
  assert (Hsw : forall x, starts_with_sep ("model_" +:+ x) = false) by done.
  destruct (String.eqb _ _ || ends_with_sep _).
  - exists (get_save_model_folder_path (args c) +:+ "model_" +:+ pretty (client_idx c)
              +:+ "_").
    intros epoch suffix. rewrite Hsw. by rewrite !string_app_assoc.
  - exists (get_save_model_folder_path (args c) +:+ "/" +:+ "model_"
              +:+ pretty (client_idx c) +:+ "_").
    intros epoch suffix. rewrite Hsw. by rewrite !string_app_assoc.
Qed.

Lemma full_save_path_inj_round (c : Client R) (epoch1 epoch2 : Z) (suffix : string) :
  full_save_path c epoch1 suffix = full_save_path c epoch2 suffix -> epoch1 = epoch2.
Proof.
  destruct (full_save_path_split_round c) as [pre Hpre]. rewrite !Hpre.
  intros H. apply String.app_inj in H. apply string_app_inv_tail in H.
  by apply pretty_Z_inj in H.
Qed.

(** X9. Saving the checkpoint of a round and suffix leaves the checkpoint
    file of every other round with that suffix, and of every other suffix in
    that round, exactly as it was: checkpoints of different rounds and the
    start and end checkpoints of one round never overwrite each other. *)
Theorem save_model_keeps_other_checkpoints (s : State R) (round round0 : Z)
    (suffix suffix0 : string) :
  os_permits_save s round suffix ->
  (round0 <> round /\ suffix0 = suffix) \/ (round0 = round /\ suffix0 <> suffix) ->
  fs_files (fs (world (fst (save_model round suffix s))))
    !! full_save_path (self s) round0 suffix0
  = fs_files (fs (world s)) !! full_save_path (self s) round0 suffix0.
Proof.
  intros Hos Hother. rewrite save_model_run by done.
  cbn [fst world fs fs_files]. apply lookup_insert_ne.
  destruct Hother as [[Hr ->] | [-> Hs]]; intros Heq.
  - apply full_save_path_inj_round in Heq. congruence.
  - apply full_save_path_inj in Heq. congruence.
Qed.

End CheckpointFiles.

Lemma save_model_keeps_other_checkpoints_witness :
  let s := fst (save_model 3 "start" (Toy.state [("w", [Toy.q 1])] [])) in
  fs_files (fs (world (fst (save_model 3 "end" s)))) !! "models/model_7_3_start.model"
  = Some (PyOrderedDict [("w", [Toy.q 1])]).
Proof.
  intros s.
  change "models/model_7_3_start.model" with (full_save_path (self s) 3 "start").
  rewrite (save_model_keeps_other_checkpoints s 3 3 "end" "start").
  - reflexivity.
  - split; reflexivity.
  - right. split; [reflexivity | discriminate].
Defined.

(** ** Checkpoints that the operating system refuses *)

Section Refused.
Context {R : Type} {SR : Scalar R} {BT : BackendTypes} {B : Backend R}.

(** X10. When the operating system refuses to create the save directory,
    or refuses the write, [save_model] raises the operating system's error,
    no file is written or changed, nothing of the client changes, and the
    trace records no [torch.save]. *)
Theorem save_model_refused (s : State R) (epoch : Z) (suffix : string) (e : Exn) :
  (os_path_exists (fs (world s)) (get_save_model_folder_path (args (self s))) = false /\
   os_refuses_mkdir (fs (world s)) (get_save_model_folder_path (args (self s))) = Some e)
  \/
  ((os_path_exists (fs (world s)) (get_save_model_folder_path (args (self s))) = true \/
    os_refuses_mkdir (fs (world s)) (get_save_model_folder_path (args (self s))) = None) /\
   os_refuses_write
     (ensure_dir (fs (world s)) (get_save_model_folder_path (args (self s))))
     (full_save_path (self s) epoch suffix) = Some e) ->
  exists s',
    save_model epoch suffix s = (s', Raise e) /\
    fs_files (fs (world s')) = fs_files (fs (world s)) /\
    self s' = self s /\
    torch_saves (trace (world s')) = torch_saves (trace (world s)).
Proof.
  unfold save_model, os_mkdir, torch_save, ensure_dir, full_save_path.
  intros [[Hex Hmk] | [Hdir Hwr]]; run.
  - rewrite Hex. run. rewrite Hmk. run. eexists. split; [reflexivity|].
    cbn [world fs fs_files self trace]. repeat split; try done.
    unfold torch_saves. rewrite omap_app. simpl. by rewrite app_nil_r.
  - destruct (os_path_exists (fs (world s)) _) eqn:Hex; run.
    + rewrite Hwr. run. eexists. split; [reflexivity|].
      cbn [world fs fs_files self trace]. repeat split; try done.
      unfold torch_saves. rewrite !omap_app. simpl. by rewrite !app_nil_r.
    + destruct Hdir as [|Hmk]; [done|]. rewrite Hmk. run. rewrite Hex. run.
      rewrite Hwr. run. eexists. split; [reflexivity|].
      cbn [world fs fs_files self trace]. repeat split; try done.
      unfold torch_saves. rewrite !omap_app. simpl. by rewrite !app_nil_r.
Qed.

End Refused.

Lemma save_model_refused_witness :
  exists s',
    save_model (B := ReadOnly.backend) 3 "start" (Toy.state [("w", [Toy.q 1])] [])
    = (s', Raise (OSError 30)) /\
    fs_files (fs (world s')) = ∅.
Proof.
  destruct (save_model_refused (B := ReadOnly.backend)
              (Toy.state [("w", [Toy.q 1])] []) 3 "start" (OSError 30))
    as (s' & Hrun & Hfiles & _).
  - right. split; [by right | reflexivity].
  - exists s'. split; [exact Hrun|]. by rewrite Hfiles.
Defined.

(** ** Evaluation *)

Section EvaluationMore.
Context {R : Type} {SR : Scalar R} {BT : BackendTypes} {B : Backend R}.

Lemma test_batches_run (batches : list Batch) : forall (acc : TestAcc) (s : State R),
  exists p' l,
    test_batches batches acc s
    = ({| self := self s;
          world := {| fs := fs (world s); proc := p'; trace := trace (world s) |} |},
       Ok {| correct := correct acc + correct_count (state_dict (net (self s))) batches;
             total := total acc + Z.of_nat (sample_count batches);
             targets_ := targets_ acc ++ all_labels batches;
             pred_ := pred_ acc ++ all_predictions (state_dict (net (self s))) batches;
             loss_sum := l |}).
Proof.
  induction batches as [|b batches IH]; intros acc s.
  - exists (proc (world s)), (loss_sum acc). cbn [test_batches]. run.
    unfold correct_count, sample_count, all_labels, all_predictions. simpl.
    change (Z.of_nat 0) with 0. rewrite !Z.add_0_r, !app_nil_r.
    by destruct s as [c [f p tr]], acc.
  - cbn [test_batches]. run. destruct (forward_loss _ _ _ _) as [l p]. run.
    match goal with
    | |- context [test_batches batches ?acc1 ?s1] =>
        destruct (IH acc1 s1) as (p' & l' & ->)
    end.
    exists p', l'. cbn [self world fs trace net state_dict correct total targets_ pred_].
    do 2 f_equal. unfold correct_count, sample_count, all_labels, all_predictions.
    simpl. rewrite <- !app_assoc. f_equal; lia.
Qed.



(** X11. [test] never changes the parameters, the optimizer, the scheduler,
    the proximal coefficient, the data or any file, whether it returns or
    raises; it leaves the network in evaluation mode, takes no gradient step
    and writes no checkpoint, and without [log] it appends nothing to the
    trace. *)
Theorem test_keeps_parameters (s : State R) (log : bool) :
  let s' := fst (test log s) in
  state_dict (net (self s')) = state_dict (net (self s)) /\
  training (net (self s')) = false /\
  optimizer (self s') = optimizer (self s) /\
  scheduler (self s') = scheduler (self s) /\
  mu (self s') = mu (self s) /\
  configuration (self s') = configuration (self s) /\
  fs (world s') = fs (world s) /\
  torch_saves (trace (world s')) = torch_saves (trace (world s)) /\
  optimizer_steps (trace (world s')) = optimizer_steps (trace (world s)) /\
  (log = false -> trace (world s') = trace (world s)).
Proof.
  intros s'. subst s'. unfold test. run.
  destruct (iterate _ _) as [batches p]. run.
  match goal with
  | |- context [test_batches batches ?acc1 ?s1] =>
      destruct (test_batches_run batches acc1 s1) as (p' & l' & ->)
  end.
  run. cbn [correct total targets_ pred_ loss_sum].
  destruct (int_truediv _ _) as [accuracy|e]; run; [|by repeat split].
  destruct (calculate_class_precision _) as [class_precision|e]; run; [|by repeat split].
  destruct (calculate_class_recall _) as [class_recall|e]; run; [|by repeat split].
  destruct log; run; repeat split; try done.
  all: unfold torch_saves, optimizer_steps; by rewrite !omap_app, !app_nil_r.
Qed.


End EvaluationMore.


(** ** The labels a client holds *)

Section Attributes.
Context {R : Type} {SR : Scalar R} {BT : BackendTypes} {B : Backend R}.

Lemma extend_all (batches : list Batch) (att_name : list Z) :
  fold_left (fun att_name batch => (att_name ++ batch_labels batch)%list) batches att_name
  = (att_name ++ all_labels batches)%list.
Proof.
  unfold all_labels. revert att_name.
  induction batches as [|b batches IH]; intros att_name; simpl.
  - by rewrite app_nil_r.
  - by rewrite IH, app_assoc.
Qed.

(** X13. [get_attributes_name] returns exactly the labels that occur in some
    batch of one pass over the training data (so the empty set for an empty
    loader, and the same set however the samples are batched or ordered); it
    advances the random state as the pass does and changes nothing else. *)
Theorem get_attributes_name_spec (s : State R) :
  let batches := fst (iterate (train_data_loader (self s)) (proc (world s))) in
  exists labels,
    get_attributes_name s
    = ({| self := self s;
          world := {| fs := fs (world s);
                      proc := snd (iterate (train_data_loader (self s)) (proc (world s)));
                      trace := trace (world s) |} |},
       Ok labels) /\
    (forall x, x ∈ labels <-> exists batch, batch ∈ batches /\ x ∈ batch_labels batch) /\
    (batches = [] -> labels = ∅) /\
    (forall labels' : list Z, all_labels batches ≡ₚ labels' -> labels = list_to_set labels').
Proof.
  intros batches. subst batches. unfold get_attributes_name. run.
  destruct (iterate _ _) as [batches p]. run. cbn [fst snd].
  eexists. split; [reflexivity|]. rewrite extend_all. cbn [app].
  split; [|split].
  - intros x. rewrite elem_of_list_to_set. unfold all_labels.
    rewrite list_elem_of_In, in_concat. split.
    + intros (l & Hl & Hx). apply in_map_iff in Hl as (b & <- & Hb).
      exists b. by rewrite !list_elem_of_In.
    + intros (b & Hb & Hx). exists (batch_labels b). rewrite <- !list_elem_of_In.
      split; [|done]. apply list_elem_of_fmap. eauto.
  - by intros ->.
  - intros labels' Hperm. apply set_eq. intros x.
    by rewrite !elem_of_list_to_set, Hperm.
Qed.

End Attributes.

(** ** Saving a checkpoint and loading it again *)

Section RoundTrip.
Context {R : Type} {SR : Scalar R} {BT : BackendTypes} {B : Backend R}.

Lemma shapes_keys (sd sd' : StateDict R) : shapes sd = shapes sd' -> keys sd = keys sd'.
Proof.
  intros H. apply (f_equal (map fst)) in H. unfold shapes, keys in *.
  by rewrite !map_map in H.
Qed.

Lemma loaded_entry_bound (all : StateDict R) : forall fresh params : StateDict R,
  shapes fresh = shapes params ->
  Forall (fun e => sd_get (fst e) all = Some (snd e)) params ->
  map (loaded_entry all) fresh = params.
Proof.
  induction fresh as [|[k t] fresh IH]; intros [|[k' t'] params] Hsh Hown;
    simpl in *; try done.
  injection Hsh as -> Hlen Hsh. apply Forall_cons in Hown as [Hhd Htl]. simpl in Hhd.
  unfold loaded_entry at 1. simpl. rewrite Hhd, Hlen, Nat.eqb_refl. f_equal.
  by apply IH.
Qed.

Lemma loaded_entry_same_shapes (fresh params : StateDict R) :
  shapes fresh = shapes params -> NoDup (keys params) ->
  map (loaded_entry params) fresh = params.
Proof.
  intros Hsh Hnd. apply loaded_entry_bound; [done|].
  apply Forall_forall. intros [k t] Hin. by apply sd_get_NoDup.
Qed.

Lemma load_state_dict_same_shapes (fresh params : StateDict R) :
  shapes fresh = shapes params -> NoDup (keys params) ->
  load_state_dict fresh params true = (params, Ok ([], [])).
Proof.
  intros Hsh Hnd. pose proof (shapes_keys _ _ Hsh) as Hkeys.
  rewrite load_state_dict_ok.
  - by rewrite loaded_entry_same_shapes.
  - unfold missing_in. apply filter_nil_all. intros k Hk. rewrite Hkeys in Hk.
    by rewrite keys_sd_mem.
  - unfold unexpected_in. apply filter_nil_all. intros k Hk. rewrite <- Hkeys in Hk.
    by rewrite keys_sd_mem.
  - apply same_shapes_of_shapes; [done|]. by rewrite Hkeys.
Qed.

(** X14. A checkpoint that [save_model] wrote loads back: when
    deserialisation mapped to the CPU gives back the pickled object (and the
    first, unmapped attempt gives it back too or fails), and the network
    class has the layer names and shapes of the saved parameter set,
    [load_model_from_file] on the checkpoint's path returns a network, in
    training mode, whose parameter set is the one that was saved. *)
Theorem save_then_load (s : State R) (round : Z) (suffix : string) :
  os_permits_save s round suffix ->
  let params := state_dict (net (self s)) in
  let path := full_save_path (self s) round suffix in
  let s1 := fst (save_model round suffix s) in
  torch_load (fs (world s1)) path (Some CPU) = Ok (PyOrderedDict params) ->
  (torch_load (fs (world s1)) path None = Ok (PyOrderedDict params)
   \/ raises (torch_load (fs (world s1)) path None) = true) ->
  shapes (fst (model_class (proc (world s1)))) = shapes params ->
  NoDup (keys params) ->
  exists s2,
    load_model_from_file path s1
    = (s2, Ok {| state_dict := params; training := true |}) /\
    self s2 = self s /\ fs (world s2) = fs (world s1).
Proof.
  intros Hos params path s1. subst s1.
  rewrite save_model_run by done. cbn [fst world fs proc].
  set (f1 := {| fs_dirs := _; fs_files := _ |}).
  intros Hcpu Hdef Hsh Hnd. unfold load_model_from_file. run.
  destruct (model_class (proc (world s))) as [weights p] eqn:Hmc. cbn [fst] in Hsh. run.
  assert (Hex : os_path_exists f1 path = true).
  { unfold os_path_exists, f1. cbn [fs_files]. apply orb_true_iff. right.
    apply bool_decide_eq_true. subst path. rewrite lookup_insert_eq. eauto. }
  fold path. fold f1. rewrite Hex. rewrite load_weights_run. run.
  unfold attempt. cbn [world fs].
  destruct Hdef as [Hdef|Hdef].
  - rewrite Hdef. unfold module_load_state_dict. cbn [state_dict training].
    rewrite (load_state_dict_same_shapes weights params Hsh Hnd). run.
    eexists. split; [reflexivity|]. done.
  - destruct (torch_load f1 path None) as [obj|e]; [done|]. run.
    rewrite load_weights_run. run. unfold attempt. cbn [world fs]. rewrite Hcpu.
    unfold module_load_state_dict. cbn [state_dict training].
    rewrite (load_state_dict_same_shapes weights params Hsh Hnd). run.
    eexists. split; [reflexivity|]. done.
Qed.

(** X15. [load_model_from_file] loads into a network of its own: whatever
    the file holds and however the call ends, the client (its network
    included) and the files are as before. *)
Theorem load_model_from_file_keeps_client (s : State R) (path : string) :
  self (fst (load_model_from_file path s)) = self s /\
  fs (world (fst (load_model_from_file path s))) = fs (world s).
Proof.
  unfold load_model_from_file. run.
  destruct (model_class (proc (world s))) as [weights p]. run.
  destruct (os_path_exists _ _); run; [|done].
  rewrite load_weights_run. run.
  destruct (attempt _ _ path None) as [model1 [|e1]]; run; [done|].
  rewrite load_weights_run. run.
  by destruct (attempt model1 _ path (Some CPU)) as [model2 [|e2]].
Qed.

End RoundTrip.

Lemma save_then_load_witness :
  exists s2,
    load_model_from_file "models/model_7_3_start.model"
      (fst (save_model 3 "start" (Toy.state [("w", [q 1])] [])))
    = (s2, Ok {| state_dict := [("w", [q 1])]; training := true |}).
Proof.
  pose proof (save_then_load (Toy.state [("w", [q 1])] []) 3 "start") as H.
  cbv zeta in H. destruct H as (s2 & Hrun & _).
  - split; reflexivity.
  - vm_compute. reflexivity.
  - right. vm_compute. reflexivity.
  - reflexivity.
  - by apply (bool_decide_unpack _).
  - exists s2. exact Hrun.
Defined.

(** ** Rounds, whatever their outcome *)

Section Rounds.
Context {R : Type} {SR : Scalar R} {BT : BackendTypes} {B : Backend R}.

Lemma scheduler_steps_app (a b : list (Event R)) :
  scheduler_steps (a ++ b) = (scheduler_steps a + scheduler_steps b)%nat.
Proof. unfold scheduler_steps. by rewrite omap_app, length_app. Qed.

Lemma logged_indices_app (a b : list (Event R)) :
  logged_indices (a ++ b) = (logged_indices a ++ logged_indices b)%list.
Proof. unfold logged_indices. by rewrite loss_logs_app, map_app. Qed.

(** The loop over the batches, however it ends: the client keeps its
    configuration, its proximal coefficient, its mode and its scheduler; the
    files are left alone; the losses logged are those of this round at the
    batch indices that the interval divides, in the order of the batches, and
    an epoch other than the last logs none. *)
Lemma train_batches_any (round epoch epochs : Z) (type : string)
    (server_model : StateDict R) (batches : list (Z * Batch)) :
  forall (running_loss : R) (s : State R),
  exists s' r events,
    train_batches round epoch epochs type server_model batches running_loss s = (s', r) /\
    trace (world s') = (trace (world s) ++ events)%list /\
    configuration (self s') = configuration (self s) /\
    mu (self s') = mu (self s) /\
    training (net (self s')) = training (net (self s)) /\
    scheduler (self s') = scheduler (self s) /\
    fs (world s') = fs (world s) /\
    torch_saves events = [] /\
    scheduler_steps events = 0%nat /\
    (length (optimizer_steps events) <= length batches)%nat /\
    (epoch <> epochs - 1 -> loss_logs events = []) /\
    Forall (logged_for round (get_log_interval (args (self s)))) (loss_logs events) /\
    logged_indices events `sublist_of` map fst batches.
Proof.
  induction batches as [|[i batch] rest IH]; intros running_loss s.
  - exists s, (Ok running_loss), []. cbn [train_batches]. run.
    rewrite app_nil_r. repeat split; try done; apply sublist_nil_l.
  - cbn [train_batches]. run.
    destruct (forward_loss _ _ batch _) as [primary p] eqn:Hfw. run.
    destruct (batch_loss_frame type server_model primary (self s)) as [[loss|e] Hbl];
      rewrite Hbl; run.
    2:{ eexists. eexists. exists []. split; [reflexivity|].
        cbn [self world trace fs]. rewrite app_nil_r.
        repeat split; try done; try (simpl; lia); apply sublist_nil_l. }
    destruct (backward_step _ _ batch loss p) as [[sd' opt'] p'] eqn:Hbw. run.
    destruct (get_log_interval (args (self s)) =? 0) eqn:Hli; run.
    { eexists. eexists. exists [EvOptimizerStep primary loss]. split; [reflexivity|].
      cbn [self world trace fs net training scheduler mu].
      repeat split; try done; try (simpl; lia); apply sublist_nil_l. }
    apply Z.eqb_neq in Hli.
    destruct ((i mod get_log_interval (args (self s)) =? 0) && (epoch =? epochs - 1))
      eqn:Hlog; run.
    all: match goal with
         | |- context [train_batches _ _ _ _ _ _ ?rl ?s1] =>
             destruct (IH rl s1)
               as (s' & r & evs & Hrun & Htr & Hconf & Hmu & Htrn & Hsch & Hfs & Hsv
                   & Hss & Hos & Hnl & Hall & Hsub);
             rewrite Hrun; clear Hrun
         end.
    all: cbn [self world args client_idx fs trace net training scheduler mu] in *.
    all: do 3 eexists; split; [reflexivity|].
    all: split; [rewrite Htr, <- !app_assoc; reflexivity|].
    all: do 5 (split; [done|]).
    all: rewrite ?logged_indices_app, ?loss_logs_app, ?scheduler_steps_app, ?torch_saves_app.
    all: unfold optimizer_steps in *; rewrite ?omap_app; rewrite ?length_app.
    all: split; [by rewrite Hsv|]; split; [by rewrite Hss|].
    all: split; [simpl in *; lia|].
    + apply andb_true_iff in Hlog as [Hmod Hlast].
      apply Z.eqb_eq in Hmod. apply Z.eqb_eq in Hlast.
      split; [done|]. split.
      * apply Forall_cons. split; [|done]. by repeat split.
      * simpl. by apply sublist_skip.
    + split; [intros Hne; by rewrite (Hnl Hne)|]. split; [done|].
      simpl. by apply sublist_cons.
Qed.

Lemma map_fst_enumerate {A} (l : list A) :
  map fst (enumerate l) = map Z.of_nat (seq 0 (length l)).
Proof.
  unfold enumerate. change (map fst) with (fmap (M := list) (@fst Z A)).
  rewrite fmap_imap. apply (imap_seq_0 l Z.of_nat).
Qed.

(** The loop over the epochs, however it ends. *)
Lemma train_epochs_any (round epochs : Z) (type : string)
    (server_model : StateDict R) (todo : list Z) :
  forall (running_loss : option R) (s : State R),
  exists s' r events,
    train_epochs round epochs type server_model todo running_loss s = (s', r) /\
    trace (world s') = (trace (world s) ++ events)%list /\
    configuration (self s') = configuration (self s) /\
    mu (self s') = mu (self s) /\
    training (net (self s'))
    = match todo with [] => training (net (self s)) | _ => true end /\
    (scheduler_steps events <= length todo)%nat /\
    (forall v, r = Ok v -> scheduler_steps events = length todo) /\
    ((epochs - 1) ∉ todo -> loss_logs events = []) /\
    Forall (logged_for round (get_log_interval (args (self s)))) (loss_logs events) /\
    (NoDup todo ->
     exists n, logged_indices events `sublist_of` map Z.of_nat (seq 0 n)).
Proof.
  induction todo as [|epoch rest IH]; intros running_loss s.
  - exists s, (Ok running_loss), []. cbn [train_epochs]. run.
    rewrite app_nil_r. repeat split; try done.
    intros _. exists 0%nat. apply sublist_nil_l.
  - cbn [train_epochs]. run.
    match goal with
    | |- context [save_model round ?sfx ?s0] =>
        destruct (save_model_any round sfx s0)
          as ([c1 w1] & r0 & evs0 & Hrun0 & Htr0 & Hself0 & Hproc0 & Hl0 & Hs0 & Ho0);
        rewrite Hrun0; clear Hrun0
    end.
    cbn [self world trace proc] in Htr0, Hself0, Hproc0. subst c1.
    destruct r0 as [[]|e]; run.
    2:{ eexists. eexists. exists evs0. split; [reflexivity|].
        cbn [self world trace net training args mu].
        repeat split; try done.
        - rewrite Hs0. lia.
        - by rewrite Hl0.
        - intros _. exists 0%nat. unfold logged_indices. rewrite Hl0. apply sublist_nil_l. }
    destruct (iterate _ _) as [batches p] eqn:Hit. run.
    match goal with
    | |- context [train_batches _ _ _ _ _ _ ?rl ?s1] =>
        destruct (train_batches_any round epoch epochs type server_model
                    (enumerate batches) rl s1)
          as ([c2 w2] & r1 & evs1 & Hrun1 & Htr1 & Hconf1 & Hmu1 & Htrn1 & Hsch1 & Hfs1
              & Hsv1 & Hss1 & Hos1 & Hnl1 & Hall1 & Hsub1);
        rewrite Hrun1; clear Hrun1
    end.
    cbn [self world trace proc fs net training args mu scheduler] in *.
    rewrite map_fst_enumerate in Hsub1.
    destruct r1 as [rl1|e]; run.
    2:{ eexists. eexists. exists (evs0 ++ evs1)%list. split; [reflexivity|].
        cbn [self world trace net training args mu].
        split; [by rewrite Htr1, Htr0, <- !app_assoc|].
        rewrite scheduler_steps_app, loss_logs_app, logged_indices_app, Hs0, Hss1, Hl0.
        unfold logged_indices at 1. rewrite Hl0.
        repeat split; try done; try (simpl; lia).
        - intros Hnot. apply Hnl1. intros ->. apply Hnot. by left.
        - intros _. eexists. exact Hsub1. }
    destruct (scheduler_step _ _) as [sched' opt'] eqn:Hsched. run.
    match goal with
    | |- context [train_epochs _ _ _ _ _ ?rl ?s2] =>
        destruct (IH rl s2)
          as (s' & r & evs & Hrun & Htr & Hconf & Hmu & Htrn & Hle & Heq & Hnl & Hall & Hsub);
        rewrite Hrun; clear Hrun
    end.
    cbn [self world trace proc fs net training args mu scheduler] in *.
    exists s', r, (evs0 ++ evs1 ++ [EvSchedulerStep] ++ evs)%list.
    split; [reflexivity|].
    split; [by rewrite Htr, Htr1, Htr0, <- !app_assoc|].
    rewrite !scheduler_steps_app, !loss_logs_app, !logged_indices_app, Hs0, Hss1, Hl0.
    unfold logged_indices at 1. rewrite Hl0.
    change (scheduler_steps [EvSchedulerStep]) with 1%nat.
    change (loss_logs [EvSchedulerStep]) with (@nil (Z * Z * R)).
    change (logged_indices [EvSchedulerStep]) with (@nil Z).
    cbn [app length map].
    unfold configuration in *. cbn [args client_idx train_data_loader test_data_loader] in *.
    injection Hconf1 as Ha1 Hi1 Htl1 Htel1.
    split; [by rewrite Hconf, Ha1, Hi1, Htl1, Htel1|].
    split; [by rewrite Hmu, Hmu1|].
    split; [rewrite Htrn; destruct rest; [by rewrite Htrn1|done]|].
    split; [lia|].
    split; [intros v Hv; rewrite (Heq v Hv); lia|].
    split.
    { intros Hnot. rewrite Hnl1, Hnl; [done| |].
      - intros Hin. apply Hnot. by right.
      - intros ->. apply Hnot. by left. }
    split.
    { apply Forall_app. split; [done|]. by rewrite <- Ha1. }
    intros Hnd. apply NoDup_cons in Hnd as [Hnotin Hnd].
    destruct (decide (epoch = epochs - 1)) as [->|Hne].
    + unfold logged_indices at 2. rewrite (Hnl Hnotin). simpl. rewrite app_nil_r.
      eexists. exact Hsub1.
    + unfold logged_indices at 1. rewrite (Hnl1 Hne). simpl. by apply Hsub.
Qed.

Lemma range_nonpos (n : Z) : n <= 0 -> range n = [].
Proof. intros Hn. unfold range. by replace (Z.to_nat n) with 0%nat by lia. Qed.

Lemma range_pos (n : Z) : 0 < n -> range n = 0 :: map Z.of_nat (seq 1 (Z.to_nat n - 1)).
Proof.
  intros Hn. unfold range. replace (Z.to_nat n) with (S (Z.to_nat n - 1)) at 1 by lia.
  done.
Qed.

Lemma NoDup_range (n : Z) : NoDup (range n).
Proof. unfold range. apply (NoDup_fmap_2 _), NoDup_seq. Qed.

(** A round with a seed that the seeding block takes, however it ends. *)
Lemma train_accepted_any (s : State R) (round epochs : Z) (type : string)
    (seed : option Z) :
  seed_accepted seed ->
  exists s' r events,
    train round epochs type seed s = (s', r) /\
    trace (world s') = (trace (world s) ++ events)%list /\
    configuration (self s') = configuration (self s) /\
    mu (self s') = mu (self s) /\
    training (net (self s'))
    = (if decide (0 < epochs) then true else training (net (self s))) /\
    (scheduler_steps events <= Z.to_nat epochs)%nat /\
    (forall v, r = Ok v -> scheduler_steps events = Z.to_nat epochs) /\
    (epochs <= 0 -> loss_logs events = []) /\
    Forall (logged_for round (get_log_interval (args (self s)))) (loss_logs events) /\
    exists n, logged_indices events `sublist_of` map Z.of_nat (seq 0 n).
Proof.
  intros Hseed. rewrite train_eq by done.
  destruct (train_epochs_any round epochs type (state_dict (net (self s))) (range epochs)
              None (seeded seed s))
    as (s1 & r1 & evs1 & Hrun1 & Htr1 & Hconf1 & Hmu1 & Htrn1 & Hle1 & Heq1 & Hnl1 & Hall1
        & Hsub1).
  rewrite Hrun1. cbn [seeded self world trace] in *. rewrite length_range in *.
  specialize (Hsub1 (NoDup_range epochs)).
  assert (Htrn : training (net (self s1))
                 = (if decide (0 < epochs) then true else training (net (self s)))).
  { rewrite Htrn1. destruct (decide (0 < epochs)) as [Hpos|Hpos].
    - by rewrite range_pos.
    - by rewrite range_nonpos by lia. }
  assert (Hnl : epochs <= 0 -> loss_logs evs1 = []).
  { intros Hn. apply Hnl1. rewrite range_nonpos by done. apply not_elem_of_nil. }
  destruct r1 as [rl|e].
  2:{ exists s1, (Raise e), evs1. by repeat split. }
  destruct (save_model_any round (get_cr_save_end_suffix (args (self s1))) s1)
    as (s2 & r2 & evs2 & Hrun2 & Htr2 & Hself2 & _ & Hl2 & Hs2 & _).
  rewrite Hrun2. do 2 eexists. exists (evs1 ++ evs2)%list. split; [reflexivity|].
  rewrite Hself2, Htr2, Htr1, <- app_assoc.
  rewrite scheduler_steps_app, loss_logs_app, logged_indices_app, Hs2, Hl2.
  unfold logged_indices at 2. rewrite Hl2. simpl. rewrite !app_nil_r, Nat.add_0_r.
  repeat split; try done.
  intros v _. by apply (Heq1 rl).
Qed.

(** A round, however it ends and whatever the seed. *)
Lemma train_any (s : State R) (round epochs : Z) (type : string) (seed : option Z) :
  exists s' r events,
    train round epochs type seed s = (s', r) /\
    trace (world s') = (trace (world s) ++ events)%list /\
    configuration (self s') = configuration (self s) /\
    mu (self s') = mu (self s) /\
    (seed_accepted seed ->
     training (net (self s'))
     = (if decide (0 < epochs) then true else training (net (self s)))) /\
    (~ seed_accepted seed -> training (net (self s')) = training (net (self s))) /\
    (scheduler_steps events <= Z.to_nat epochs)%nat /\
    (forall v, r = Ok v -> scheduler_steps events = Z.to_nat epochs) /\
    (epochs <= 0 -> loss_logs events = []) /\
    Forall (logged_for round (get_log_interval (args (self s)))) (loss_logs events) /\
    exists n, logged_indices events `sublist_of` map Z.of_nat (seq 0 n).
Proof.
  destruct (seed_accepted_or_rejected seed) as [Hseed|(z & -> & Hz)].
  - destruct (train_accepted_any s round epochs type seed Hseed)
      as (s' & r & evs & Hrun & Htr & Hconf & Hmu & Htrn & Hle & Heq & Hnl & Hall & Hsub).
    exists s', r, evs. by repeat split.
  - rewrite train_rejected by done. eexists. eexists. exists [].
    split; [reflexivity|]. cbn [self world trace]. rewrite app_nil_r.
    repeat split; try done.
    + unfold scheduler_steps. simpl. lia.
    + exists 0%nat. apply sublist_nil_l.
Qed.

(** X16. [train] changes the network, the optimizer and the scheduler only:
    however the round ends, the client has the arguments, the index, the
    proximal coefficient and the two data loaders that it had. *)
Theorem train_keeps_configuration (s : State R) (round epochs : Z) (type : string)
    (seed : option Z) :
  configuration (self (fst (train round epochs type seed s))) = configuration (self s) /\
  mu (self (fst (train round epochs type seed s))) = mu (self s).
Proof.
  destruct (train_any s round epochs type seed) as (s' & r & evs & -> & _ & Hconf & Hmu & _).
  done.
Qed.


(** X18. With no seed, or a seed between [0] and [2**32 - 1], a round of at
    least one epoch leaves the network in training mode, however it ends,
    and a round of no epochs leaves the mode as it was; with another seed
    the round ends in the seeding block and the mode is as it was.  The
    scheduler steps at most once for each epoch, and exactly once for each
    epoch when the round returns. *)
Theorem train_mode_and_schedule (s : State R) (round epochs : Z) (type : string)
    (seed : option Z) :
  exists s' r events,
    train round epochs type seed s = (s', r) /\
    trace (world s') = (trace (world s) ++ events)%list /\
    (seed_accepted seed ->
     training (net (self s'))
     = (if decide (0 < epochs) then true else training (net (self s)))) /\
    (~ seed_accepted seed -> training (net (self s')) = training (net (self s))) /\
    (scheduler_steps events <= Z.to_nat epochs)%nat /\
    (raises r = false -> scheduler_steps events = Z.to_nat epochs).
Proof.
  destruct (train_any s round epochs type seed)
    as (s' & r & evs & Hrun & Htr & _ & _ & Htrn & Hold & Hle & Heq & _).
  exists s', r, evs. repeat split; try done.
  destruct r as [v|e]; [|done]. intros _. by apply (Heq v).
Qed.

End Rounds.
(** ** Rounds that fail on the logging interval *)

Section IntervalZero.
Context {R : Type} {SR : Scalar R} {BT : BackendTypes} {B : Backend R}.

(** X19. With a logging interval of [0], and no seed or a seed between [0]
    and [2**32 - 1], a round of at least one epoch over at least one batch
    raises [ZeroDivisionError] at the first batch of its first epoch:
    [i % 0] is evaluated before [epoch == epochs - 1] is.  By then the start
    checkpoint is written and one optimizer step is taken; no end checkpoint
    is written. *)
Theorem train_log_interval_zero (s : State R) (round epochs : Z) (type : string)
    (seed : option Z) :
  seed_accepted seed ->
  get_log_interval (args (self s)) = 0 ->
  0 < epochs ->
  NoDup (keys (state_dict (net (self s)))) ->
  os_permits_save s round (get_cr_save_start_suffix (args (self s))) ->
  fst (iterate (train_data_loader (self s)) (seeded_proc seed (proc (world s)))) <> [] ->
  exists s' events,
    train round epochs type seed s = (s', Raise ZeroDivisionError) /\
    trace (world s') = (trace (world s) ++ events)%list /\
    saves_and_steps events
    = [Some (full_save_path (self s) round (get_cr_save_start_suffix (args (self s))));
       None].
Proof.
  intros Hseed Hli Hpos Hnd Hos Hne.
  rewrite train_eq by done. rewrite range_pos by done.
  cbn [train_epochs]. unfold seeded. run.
  rewrite save_model_run by exact Hos. run.
  destruct (iterate _ _) as [[|batch batches] p] eqn:Hit; [done|]. run.
  unfold enumerate. cbn [imap train_batches]. run.
  destruct (forward_loss _ _ batch _) as [primary p1] eqn:Hfw. run.
  match goal with
  | |- context [batch_loss type ?sm primary ?s1] =>
      destruct (batch_loss_total s1 type sm primary eq_refl Hnd) as [loss Hloss];
      rewrite Hloss
  end.
  run. destruct (backward_step _ _ batch loss p1) as [[sd' opt'] p'] eqn:Hbw. run.
  rewrite Hli. cbn [Z.eqb]. run.
  do 2 eexists. split; [reflexivity|]. cbn [world trace].
  split; [rewrite <- !app_assoc; reflexivity|].
  unfold saves_and_steps, save_model_events. cbn [self world fs args].
  by destruct (os_path_exists _ _).
Qed.

End IntervalZero.

Lemma train_log_interval_zero_witness :
  exists s',
    train 3 2 "fed_avg" (Some 40) (Unlogged.state [("w", [q 1])] [[(1, 1)]])
    = (s', Raise ZeroDivisionError).
Proof.
  destruct (train_log_interval_zero (Unlogged.state [("w", [q 1])] [[(1, 1)]]) 3 2
              "fed_avg" (Some 40)) as (s' & evs & Hrun & _).
  - simpl. lia.
  - reflexivity.
  - lia.
  - by apply (bool_decide_unpack _).
  - split; reflexivity.
  - discriminate.
  - by exists s'.
Defined.

(** ** Rounds that return *)

Section Returns.
Context {R : Type} {SR : Scalar R} {BT : BackendTypes} {B : Backend R}.

Lemma last_range (n : Z) : 0 < n -> last (range n) = Some (n - 1).
Proof.
  intros Hn. unfold range. replace (Z.to_nat n) with (S (Z.to_nat n - 1)) by lia.
  rewrite seq_S, map_app. simpl. change (map Z.of_nat) with (fmap (M := list) Z.of_nat).
  rewrite last_snoc. f_equal. lia.
Qed.

(** In the last epoch with a logging interval of [1] every batch is logged
    and the running loss is reset after it. *)
Lemma train_batches_logged (round epochs : Z) (type : string)
    (server_model : StateDict R) (batches : list (Z * Batch)) :
  forall (s s' : State R) (v : R),
    get_log_interval (args (self s)) = 1 ->
    train_batches round (epochs - 1) epochs type server_model batches (of_int 0) s
    = (s', Ok v) ->
    v = of_int 0.
Proof.
  induction batches as [|[i batch] rest IH]; intros s s' v Hli.
  - cbn [train_batches]. run. congruence.
  - cbn [train_batches]. run.
    destruct (forward_loss _ _ batch _) as [primary p] eqn:Hfw. run.
    destruct (batch_loss_frame type server_model primary (self s)) as [[loss|e] Hbl];
      rewrite Hbl; run; [|done].
    destruct (backward_step _ _ batch loss p) as [[sd' opt'] p'] eqn:Hbw. run.
    rewrite Hli, Z.mod_1_r, !Z.eqb_refl. cbn [Z.eqb andb]. run.
    by apply IH.
Qed.

Lemma train_epochs_last (round epochs : Z) (type : string)
    (server_model : StateDict R) (todo : list Z) :
  forall (running_loss : option R) (s s' : State R) (v : option R),
    get_log_interval (args (self s)) = 1 ->
    last todo = Some (epochs - 1) ->
    train_epochs round epochs type server_model todo running_loss s = (s', Ok v) ->
    v = Some (of_int 0).
Proof.
  induction todo as [|epoch rest IH]; intros running_loss s s' v Hli Hlast; [done|].
  cbn [train_epochs]. run.
  match goal with
  | |- context [save_model round ?sfx ?s0] =>
      destruct (save_model_any round sfx s0)
        as ([c1 w1] & r0 & evs0 & Hrun0 & _ & Hself0 & _);
      rewrite Hrun0; clear Hrun0
  end.
  cbn [self] in Hself0. subst c1. destruct r0 as [[]|e]; run; [|done].
  destruct (iterate _ _) as [batches p] eqn:Hit. run.
  match goal with
  | |- context [train_batches _ _ _ _ _ ?bs ?rl ?s1] =>
      destruct (train_batches_any round epoch epochs type server_model bs rl s1)
        as ([c2 w2] & r1 & evs1 & Hrun1 & _ & Hconf1 & _);
      pose proof (train_batches_logged round epochs type server_model bs s1) as Hlogged
  end.
  cbn [self args] in Hlogged. unfold configuration in Hconf1. cbn [self args] in Hconf1.
  injection Hconf1 as Ha1 _ _ _.
  destruct rest as [|epoch' rest].
  - injection Hlast as ->. rewrite Hrun1 in *. destruct r1 as [rl1|e]; run; [|done].
    destruct (scheduler_step _ _) as [sched' opt']. run. cbn [train_epochs]. run.
    intros [= _ <-]. f_equal. by eapply Hlogged.
  - rewrite Hrun1. destruct r1 as [rl1|e]; run; [|done].
    destruct (scheduler_step _ _) as [sched' opt']. run.
    apply IH; [cbn [self args]; by rewrite Ha1 | done].
Qed.

(** [save_model], when it returns: the file at the path of the checkpoint
    holds the parameter set. *)
Lemma save_model_returns (epoch : Z) (suffix : string) (s s' : State R) (u : unit) :
  save_model epoch suffix s = (s', Ok u) ->
  self s' = self s /\
  fs_files (fs (world s')) !! full_save_path (self s) epoch suffix
  = Some (PyOrderedDict (state_dict (net (self s)))).
Proof.
  unfold save_model, os_mkdir, torch_save, full_save_path. run.
  destruct (os_path_exists (fs (world s)) _) eqn:Hex; run.
  - destruct (os_refuses_write _ _) as [e|]; run; [done|].
    intros [= <- _]. cbn [self world fs fs_files]. split; [done|]. apply lookup_insert_eq.
  - destruct (os_refuses_mkdir _ _) as [e|]; run; [done|]. rewrite Hex. run.
    destruct (os_refuses_write _ _) as [e|]; run; [done|].
    intros [= <- _]. cbn [self world fs fs_files]. split; [done|]. apply lookup_insert_eq.
Qed.

(** X20. With a logging interval of [1] the running loss is reset after
    every batch of the last epoch, so a round of at least one epoch that
    returns, returns [0.0], whatever the losses were.  And the round does
    return when the seed is one the seeding block takes, the layer names are
    distinct, an optimizer step keeps names and shapes and the operating
    system refuses no [mkdir] and no write. *)
Theorem train_returns_zero (s : State R) (round epochs : Z) (type : string)
    (seed : option Z) :
  get_log_interval (args (self s)) = 1 ->
  0 < epochs ->
  (forall (s' : State R) (v : R),
     train round epochs type seed s = (s', Ok v) -> v = of_int 0) /\
  (seed_accepted seed ->
   NoDup (keys (state_dict (net (self s)))) ->
   shape_preserving ->
   os_never_refuses ->
   exists s', train round epochs type seed s = (s', Ok (of_int 0))).
Proof.
  intros Hli Hpos.
  assert (Hzero : forall (s' : State R) (v : R),
            train round epochs type seed s = (s', Ok v) -> v = of_int 0).
  { intros s' v.
    destruct (seed_accepted_or_rejected seed) as [Hseed|(z & -> & Hz)]; [|by rewrite train_rejected].
    rewrite train_eq by done.
    destruct (train_epochs _ _ _ _ _ _ _) as [s1 [rl|e]] eqn:Hrun; [|done].
    rewrite (train_epochs_last _ _ _ _ _ _ (seeded seed s) _ _ Hli (last_range _ Hpos) Hrun).
    destruct (save_model _ _ _) as [s2 [u|e]]; [|done]. by intros [= _ <-]. }
  split; [exact Hzero|].
  intros Hseed Hnd Hstep Hos.
  destruct (train_run Hstep Hos s round epochs type seed Hseed Hnd)
    as (s' & r & evs & Hrun & Hret & _).
  { rewrite Hli. done. }
  destruct (Hret Hpos) as [v ->]. exists s'. by rewrite (Hzero s' v Hrun) in Hrun.
Qed.

(** X21. When a round returns, the end checkpoint holds the parameters that
    the network then has.  And a round of at least one epoch does return
    when the seed is one the seeding block takes, the layer names are
    distinct, the logging interval is not [0], an optimizer step keeps names
    and shapes and the operating system refuses no [mkdir] and no write. *)
Theorem train_end_checkpoint (s : State R) (round epochs : Z) (type : string)
    (seed : option Z) :
  (forall (s' : State R) (v : R),
     train round epochs type seed s = (s', Ok v) ->
     fs_files (fs (world s'))
       !! full_save_path (self s) round (get_cr_save_end_suffix (args (self s)))
     = Some (PyOrderedDict (state_dict (net (self s'))))) /\
  (seed_accepted seed ->
   NoDup (keys (state_dict (net (self s)))) ->
   get_log_interval (args (self s)) <> 0 ->
   0 < epochs ->
   shape_preserving ->
   os_never_refuses ->
   exists s' v, train round epochs type seed s = (s', Ok v)).
Proof.
  split.
  - intros s' v.
    destruct (seed_accepted_or_rejected seed) as [Hseed|(z & -> & Hz)]; [|by rewrite train_rejected].
    rewrite train_eq by done.
    destruct (train_epochs_any round epochs type (state_dict (net (self s)))
                (range epochs) None (seeded seed s))
      as (s1 & r1 & evs1 & Hrun1 & _ & Hconf1 & _).
    rewrite Hrun1. destruct r1 as [rl|e]; [|done].
    destruct (save_model _ _ _) as [s2 [u|e]] eqn:Hsave; [|done].
    destruct (save_model_returns _ _ _ _ _ Hsave) as [Hself Hfile].
    intros [= <- _]. rewrite Hself.
    unfold configuration in Hconf1. cbn [seeded self] in Hconf1.
    injection Hconf1 as Hargs Hidx _ _.
    by rewrite <- (full_save_path_ext (self s1) (self s) round _ Hargs Hidx), <- Hargs.
  - intros Hseed Hnd Hli Hpos Hstep Hos.
    destruct (train_run Hstep Hos s round epochs type seed Hseed Hnd Hli)
      as (s' & r & evs & Hrun & Hret & _).
    destruct (Hret Hpos) as [v ->]. by exists s', v.
Qed.

End Returns.

Lemma train_returns_zero_witness :
  exists s',
    train 3 2 "fed_prox" (Some 40) (Toy.state [("w", [q 1])] [[(1, 1)]; [(0, 1)]])
    = (s', Ok (q 0)).
Proof.
  apply (train_returns_zero (Toy.state [("w", [q 1])] [[(1, 1)]; [(0, 1)]]) 3 2
           "fed_prox" (Some 40)).
  - reflexivity.
  - lia.
  - simpl. lia.
  - by apply (bool_decide_unpack _).
  - exact toy_shape_preserving.
  - exact toy_os_never_refuses.
Defined.

Lemma train_end_checkpoint_witness :
  exists s' v,
    train 3 2 "fed_prox" (Some 40) (Toy.state [("w", [q 1])] [[(1, 1)]]) = (s', Ok v) /\
    fs_files (fs (world s')) !! "models/model_7_3_end.model"
    = Some (PyOrderedDict (state_dict (net (self s')))).
Proof.
  destruct (train_end_checkpoint (Toy.state [("w", [q 1])] [[(1, 1)]]) 3 2 "fed_prox"
              (Some 40)) as [Hfile Hreturns].
  destruct Hreturns as (s' & v & Hrun).
  - simpl. lia.
  - by apply (bool_decide_unpack _).
  - discriminate.
  - lia.
  - exact toy_shape_preserving.
  - exact toy_os_never_refuses.
  - exists s', v. split; [exact Hrun|]. exact (Hfile s' v Hrun).
Defined.

(** ** The proximal coefficient *)

Section Coefficient.
Context {R : Type} {SR : Scalar R} {BT : BackendTypes} {B : Backend R}.
Variable m : R.

Lemma save_model_mu (epoch : Z) (suffix : string) (a : Arguments) (idx : Z) (n : Net R)
    (o : Optimizer) (sc : Scheduler) (mu1 : R) (tl tel : DataLoader) (w : World R) :
  save_model epoch suffix
    {| self := {| args := a; client_idx := idx; net := n; optimizer := o; scheduler := sc;
                  mu := m; train_data_loader := tl; test_data_loader := tel |};
       world := w |}
  = let '(s', r) :=
      save_model epoch suffix
        {| self := {| args := a; client_idx := idx; net := n; optimizer := o;
                      scheduler := sc; mu := mu1; train_data_loader := tl;
                      test_data_loader := tel |};
           world := w |} in
    (fst (set_mu m s'), r).
Proof.
  unfold save_model, os_mkdir, torch_save, set_mu. run.
  destruct (os_path_exists (fs w) a.(get_save_model_folder_path)) eqn:Hex; run.
  - by destruct (os_refuses_write _ _).
  - destruct (os_refuses_mkdir _ _); run; [done|]. rewrite Hex. run.
    by destruct (os_refuses_write _ _).
Qed.

Lemma train_batches_mu (round epoch epochs : Z) (type : string)
    (server_model : StateDict R) (batches : list (Z * Batch)) :
  type <> "fed_prox" -> type <> "fed_greedy" ->
  forall (running_loss : R) (a : Arguments) (idx : Z) (n : Net R) (o : Optimizer)
         (sc : Scheduler) (mu1 : R) (tl tel : DataLoader) (w : World R),
    train_batches round epoch epochs type server_model batches running_loss
      {| self := {| args := a; client_idx := idx; net := n; optimizer := o;
                    scheduler := sc; mu := m; train_data_loader := tl;
                    test_data_loader := tel |};
         world := w |}
    = let '(s', r) :=
        train_batches round epoch epochs type server_model batches running_loss
          {| self := {| args := a; client_idx := idx; net := n; optimizer := o;
                        scheduler := sc; mu := mu1; train_data_loader := tl;
                        test_data_loader := tel |};
             world := w |} in
      (fst (set_mu m s'), r).
Proof.
  intros Hp Hg. induction batches as [|[i batch] rest IH];
    intros running_loss a idx n o sc mu1 tl tel w.
  - cbn [train_batches]. unfold set_mu. by run.
  - cbn [train_batches]. run.
    destruct (forward_loss _ _ batch _) as [primary p] eqn:Hfw. run.
    rewrite !batch_loss_other by done. run.
    destruct (backward_step _ _ batch primary p) as [[sd' opt'] p'] eqn:Hbw. run.
    destruct (get_log_interval a =? 0); run; [unfold set_mu; by run|].
    destruct ((i mod get_log_interval a =? 0) && (epoch =? epochs - 1)); run; apply IH.
Qed.

Lemma train_epochs_mu (round epochs : Z) (type : string)
    (server_model : StateDict R) (todo : list Z) :
  type <> "fed_prox" -> type <> "fed_greedy" ->
  forall (running_loss : option R) (a : Arguments) (idx : Z) (n : Net R) (o : Optimizer)
         (sc : Scheduler) (mu1 : R) (tl tel : DataLoader) (w : World R),
    train_epochs round epochs type server_model todo running_loss
      {| self := {| args := a; client_idx := idx; net := n; optimizer := o;
                    scheduler := sc; mu := m; train_data_loader := tl;
                    test_data_loader := tel |};
         world := w |}
    = let '(s', r) :=
        train_epochs round epochs type server_model todo running_loss
          {| self := {| args := a; client_idx := idx; net := n; optimizer := o;
                        scheduler := sc; mu := mu1; train_data_loader := tl;
                        test_data_loader := tel |};
             world := w |} in
      (fst (set_mu m s'), r).
Proof.
  intros Hp Hg. induction todo as [|epoch rest IH];
    intros running_loss a idx n o sc mu1 tl tel w.
  - cbn [train_epochs]. unfold set_mu. by run.
  - cbn [train_epochs]. run. rewrite (save_model_mu _ _ _ _ _ _ _ mu1).
    destruct (save_model _ _ _) as [[[a1 idx1 n1 o1 sc1 mu2 tl1 tel1] w1] [[]|e]];
      unfold set_mu; run; [|done].
    destruct (iterate _ _) as [batches p] eqn:Hit. run.
    rewrite (train_batches_mu round epoch epochs type server_model (enumerate batches)
               Hp Hg _ _ _ _ _ _ mu2).
    destruct (train_batches _ _ _ _ _ _ _ _)
      as [[[a2 idx2 n2 o2 sc2 mu3 tl2 tel2] w2] [rl|e]];
      unfold set_mu; run; [|done].
    destruct (scheduler_step sc2 o2) as [sched' opt']. run. apply IH.
Qed.

(** X22. For an objective other than fed_prox and fed_greedy the proximal
    coefficient plays no part in a round: setting it first changes neither
    what the round returns, nor the parameters, the files, the random
    state or the events that the round leaves; only the coefficient
    itself differs. *)
Theorem train_ignores_mu (s : State R) (round epochs : Z) (type : string)
    (seed : option Z) :
  type <> "fed_prox" -> type <> "fed_greedy" ->
  (set_mu m;; train round epochs type seed) s
  = let '(s', r) := train round epochs type seed s in (fst (set_mu m s'), r).
Proof.
  intros Hp Hg. destruct s as [[a idx n o sc mu1 tl tel] w].
  unfold set_mu at 1. run.
  destruct (seed_accepted_or_rejected seed) as [Hseed|(z & -> & Hz)].
  2:{ rewrite !train_rejected by done. unfold set_mu. by run. }
  rewrite !train_eq by done. unfold seeded. run.
  rewrite (train_epochs_mu round epochs type (state_dict n) (range epochs) Hp Hg
             _ _ _ _ _ _ mu1).
  destruct (train_epochs _ _ _ _ _ _ _)
    as [[[a1 idx1 n1 o1 sc1 mu2 tl1 tel1] w1] [rl|e]];
    unfold set_mu; run; [|done].
  rewrite (save_model_mu _ _ _ _ _ _ _ mu2).
  by destruct (save_model _ _ _) as [s2 [[]|e]].
Qed.

End Coefficient.

(** ** Seeds that the libraries do not take *)

Section RejectedSeeds.
Context {R : Type} {SR : Scalar R} {BT : BackendTypes} {B : Backend R}.

(** X23. A seed outside [0 .. 2**32 - 1] ends the round in the seeding
    block, before anything else is done: the client (parameters, mode,
    optimizer, scheduler) and the files are as they were, nothing is logged,
    no checkpoint is written and no step is taken.  For a seed that torch
    takes (between [-2**63] and [2**64 - 1]) the error is numpy's
    [ValueError], and torch's generator has been seeded by then; for another
    seed it is torch's [RuntimeError] and the random state is untouched.
    Numpy's and Python's generator and the two cudnn flags are as they were
    in both cases. *)
Theorem train_seed_rejected (s : State R) (round epochs : Z) (type : string) (seed : Z) :
  ~ 0 <= seed <= 2 ^ 32 - 1 ->
  exists s' e,
    train round epochs type (Some seed) s = (s', Raise e) /\
    self s' = self s /\
    fs (world s') = fs (world s) /\
    trace (world s') = trace (world s) /\
    np_rng (proc (world s')) = np_rng (proc (world s)) /\
    py_rng (proc (world s')) = py_rng (proc (world s)) /\
    cudnn_deterministic (proc (world s')) = cudnn_deterministic (proc (world s)) /\
    cudnn_benchmark (proc (world s')) = cudnn_benchmark (proc (world s)) /\
    (- 2 ^ 63 <= seed <= 2 ^ 64 - 1 ->
     (exists msg, e = ValueError msg) /\
     torch_rng (proc (world s')) = torch_manual_seed seed) /\
    (~ - 2 ^ 63 <= seed <= 2 ^ 64 - 1 ->
     (exists msg, e = RuntimeError msg) /\
     proc (world s') = proc (world s)).
Proof.
  intros Hseed. rewrite train_rejected by done. do 2 eexists. split; [reflexivity|].
  cbn [self world fs trace proc].
  destruct (torch_accepts_seed seed) eqn:Htorch; unfold torch_accepts_seed in Htorch.
  - apply andb_true_iff in Htorch as [Hlo Hhi].
    apply Z.leb_le in Hlo. apply Z.leb_le in Hhi.
    cbn [np_rng py_rng cudnn_deterministic cudnn_benchmark torch_rng].
    do 7 (split; [done|]). split.
    + intros _. split; [by eexists|done].
    + intros Hout. destruct Hout. lia.
  - apply andb_false_iff in Htorch.
    do 7 (split; [done|]). split.
    + intros Hin. destruct Htorch as [H|H]; apply Z.leb_gt in H; lia.
    + intros _. split; [by eexists|done].
Qed.

End RejectedSeeds.

Lemma train_seed_rejected_witness :
  exists s' msg,
    train 3 2 "fed_avg" (Some (-1)) (Toy.state [("w", [q 1])] [[(1, 1)]])
    = (s', Raise (ValueError msg)) /\
    self s' = self (Toy.state [("w", [q 1])] [[(1, 1)]]).
Proof.
  destruct (train_seed_rejected (Toy.state [("w", [q 1])] [[(1, 1)]]) 3 2 "fed_avg" (-1))
    as (s' & e & Hrun & Hself & _ & _ & _ & _ & _ & _ & Hin & _).
  - lia.
  - destruct Hin as [[msg ->] _]; [lia|]. by exists s', msg.
Defined.

Lemma train_ignores_mu_witness :
  (set_mu (q 5);; train 3 2 "fed_avg" (Some 40)) (Toy.state [("w", [q 1])] [[(1, 1)]])
  = let '(s', r) := train 3 2 "fed_avg" (Some 40) (Toy.state [("w", [q 1])] [[(1, 1)]]) in
    (fst (set_mu (q 5) s'), r).
Proof. apply train_ignores_mu; discriminate. Defined.
